(** * NBS Inventory Optimizer: feature derivation and insight rules

    A shallow embedding of [app.py], the single Streamlit script of the
    repository.  Python integers are [Z]; [numpy.float64] scalars are the
    kernel's binary64 floats, whose operations are the IEEE 754 ones numpy
    uses; the Streamlit page is a trace of emitted elements and external
    calls, threaded through a small state-and-exception monad. *)

From Stdlib Require Import Ascii.
From Stdlib Require Import ZArith List String Bool Sorted Lia.
From Stdlib Require Import Floats Uint63.
From Stdlib Require Import Reals Lra.
From Stdlib Require DecimalString DecimalZ.
From Stdlib Require Machin.
Import ListNotations.

Local Open Scope Z_scope.

(** ** Python exceptions and fallible computations *)

(** Instances of [Exception] as the script can meet them; [str(e)] is what
    the two [st.error] calls interpolate. *)
Inductive exn : Type :=
| ValueError (msg : string)
| OverflowError (msg : string)
| ZeroDivisionError (msg : string)
| OtherException (msg : string).

Inductive result (A : Type) : Type :=
| Ok (a : A)
| Raise (e : exn).

Arguments Ok {A} a.
Arguments Raise {A} e.

(** ** numpy.float64 scalars *)

Module Float64.

(** Conversion of a Python [int] operand in mixed arithmetic: the nearest
    float64, as in Python for magnitudes below 2^63, and exact for every
    integer the bounded widgets and the calendar year can produce. *)
Definition of_int (z : Z) : float :=
  if z <? 0 then PrimFloat.opp (PrimFloat.of_uint63 (Uint63.of_Z (- z)))
  else PrimFloat.of_uint63 (Uint63.of_Z z).

(** [np.pi], the double nearest to pi. *)
Definition pi : float := 0x1.921fb54442d18p+1%float.

(** [int(x)]: truncation toward zero; [ValueError] on nan and
    [OverflowError] on an infinity. *)
Definition to_int (x : float) : result Z :=
  match Prim2SF x with
  | S754_zero _ => Ok 0
  | S754_finite s m e =>
      let magnitude :=
        match e with
        | Z0 => Zpos m
        | Zpos p => Zpos m * 2 ^ Zpos p
        | Zneg p => Zpos m / 2 ^ Zpos p
        end in
      Ok (if s then - magnitude else magnitude)
  | S754_infinity _ =>
      Raise (OverflowError "cannot convert float infinity to integer")
  | S754_nan =>
      Raise (ValueError "cannot convert float NaN to integer")
  end.

(** [a / b] on two Python ints (true division).  Both operands stay far
    below 2^53 here, where the result is the rounded float quotient. *)
Definition int_truediv (a b : Z) : result float :=
  if b =? 0 then Raise (ZeroDivisionError "division by zero")
  else Ok (of_int a / of_int b)%float.

End Float64.

(** ** The numeric operations of the feature deriver

    [np.sin] and [np.cos] come from the platform's math library, which is
    not part of the repository; the deriver is therefore written over the
    operations it uses and instantiated with binary64 floats, the sine and
    cosine of the math library left as parameters. *)

Class Numpy (F : Type) : Type := {
  np_of_int : Z -> F;
  np_pi : F;
  np_mul : F -> F -> F;
  np_div : F -> F -> F;
  np_sin : F -> F;
  np_cos : F -> F
}.

Definition numpy_float64 (libm_sin libm_cos : float -> float) : Numpy float := {|
  np_of_int := Float64.of_int;
  np_pi := Float64.pi;
  np_mul := PrimFloat.mul;
  np_div := PrimFloat.div;
  np_sin := libm_sin;
  np_cos := libm_cos
|}.

(** ** Sidebar inputs *)

Definition month_names : list string :=
  ["January"; "February"; "March"; "April"; "May"; "June";
   "July"; "August"; "September"; "October"; "November"; "December"]%string.

(** [list.index]: position of the first occurrence, [ValueError] if absent. *)
Fixpoint index (x : string) (l : list string) : result Z :=
  match l with
  | [] => Raise (ValueError "x not in list")
  | y :: l' =>
      if String.eqb y x then Ok 0
      else match index x l' with
           | Ok n => Ok (n + 1)
           | Raise e => Raise e
           end
  end.

(** [month_num = [...].index(prediction_month) + 1] *)
Definition month_num_of (prediction_month : string) : result Z :=
  match index prediction_month month_names with
  | Ok n => Ok (n + 1)
  | Raise e => Raise e
  end.

(** The values the script reads before the prediction button is examined. *)
Record Inputs : Type := {
  month_num : Z;            (* 1..12, from the month selectbox *)
  current_year : Z;         (* datetime.now().year *)
  current_price : Z;        (* number_input, 100..10000 *)
  last_month_price : Z;     (* number_input, 100..10000 *)
  units_sold_lag1 : Z;      (* number_input, 0..5000 *)
  is_festive : string;      (* selectbox: "No" or "Yes" *)
  is_harvest : string       (* selectbox: "No" or "Yes" *)
}.

(** The ranges the widgets and the calendar enforce. *)
Definition in_widget_ranges (i : Inputs) : bool :=
  (1 <=? month_num i) && (month_num i <=? 12) &&
  (1 <=? current_year i) && (current_year i <=? 9999) &&
  (100 <=? current_price i) && (current_price i <=? 10000) &&
  (100 <=? last_month_price i) && (last_month_price i <=? 10000) &&
  (0 <=? units_sold_lag1 i) && (units_sold_lag1 i <=? 5000).

(** ** Feature Deriver *)

Definition months_since_start_of (current_year month_num : Z) : Z :=
  (current_year - 2017) * 12 + month_num.

Definition months_since_start (i : Inputs) : Z :=
  months_since_start_of (current_year i) (month_num i).

Definition price_change (i : Inputs) : Z :=
  current_price i - last_month_price i.

Definition is_festive_num (i : Inputs) : Z :=
  if String.eqb (is_festive i) "Yes" then 1 else 0.

Definition is_harvest_num (i : Inputs) : Z :=
  if String.eqb (is_harvest i) "Yes" then 1 else 0.

Section FeatureDeriver.

Context {F : Type} {numpy : Numpy F}.

(** [2 * np.pi * month_num / 12], evaluated left to right. *)
Definition month_angle (m : Z) : F :=
  np_div (np_mul (np_mul (np_of_int 2) np_pi) (np_of_int m)) (np_of_int 12).

Definition month_sin_of (m : Z) : F := np_sin (month_angle m).
Definition month_cos_of (m : Z) : F := np_cos (month_angle m).

Definition month_sin (i : Inputs) : F := month_sin_of (month_num i).
Definition month_cos (i : Inputs) : F := month_cos_of (month_num i).

(** [np.array([[...]])]: one row of seven float64 entries. *)
Definition input_features (i : Inputs) : list (list F) :=
  [[ np_of_int (months_since_start i);
     np_of_int (units_sold_lag1 i);
     np_of_int (price_change i);
     month_sin i;
     month_cos i;
     np_of_int (is_festive_num i);
     np_of_int (is_harvest_num i) ]].

End FeatureDeriver.

(** The real number a finite float64 stands for (0 for nan and the
    infinities, which no feature takes within the widget ranges). *)
Definition float_value (x : float) : R :=
  match Prim2SF x with
  | S754_finite s m e =>
      (IZR (if s then Z.neg m else Z.pos m) * powerRZ 2 e)%R
  | _ => 0%R
  end.

(** Converting an integer to float64 and back with [int] loses nothing. *)
Definition int_roundtrips (z : Z) : bool :=
  match Float64.to_int (Float64.of_int z) with
  | Ok z' => z' =? z
  | Raise _ => false
  end.

(** [f] holds on the [n] integers from [lo] upwards. *)
Fixpoint all_from (lo : Z) (n : nat) (f : Z -> bool) : bool :=
  match n with
  | O => true
  | S n' => f lo && all_from (lo + 1) n' f
  end.

(** ** Insight Generator *)

(** One constructor per advisory template of the script; the arguments are
    the numbers the f-strings interpolate (their textual formatting is left
    to the rendering layer). *)
Inductive insight : Type :=
| Price_increased (amount : Z)      (* "Price increased by N{amount}" *)
| Price_decreased (amount : Z)      (* "Price decreased by N{amount}" *)
| Price_stable                      (* "Price stable" *)
| Festive_season                    (* "Festive season active" *)
| Harvest_season                    (* "Harvest season" *)
| Stock_up (percent : float)        (* "Significant increase expected" *)
| Demand_drop (percent : float).    (* "Demand may drop" *)

(** [((prediction - units_sold_lag1) / units_sold_lag1) * 100] on a
    [numpy.float64] prediction: IEEE arithmetic, so a zero divisor gives an
    infinity or nan (with a RuntimeWarning) and raises nothing. *)
Definition change_pct (prediction : float) (units_sold_lag1 : Z) : float :=
  ((prediction - Float64.of_int units_sold_lag1)
     / Float64.of_int units_sold_lag1 * 100)%float.

(** The list is built by successive [append]s, here successive bindings. *)
Definition insights (i : Inputs) (prediction : float) : list insight :=
  let insights := [] in
  let insights :=
    if price_change i >? 0 then
      insights ++ [Price_increased (price_change i)]
    else if price_change i <? 0 then
      insights ++ [Price_decreased (Z.abs (price_change i))]
    else
      insights ++ [Price_stable] in
  let insights :=
    if String.eqb (is_festive i) "Yes" then insights ++ [Festive_season]
    else insights in
  let insights :=
    if String.eqb (is_harvest i) "Yes" then insights ++ [Harvest_season]
    else insights in
  let change_pct := change_pct prediction (units_sold_lag1 i) in
  let insights :=
    if (10 <? change_pct)%float then
      insights ++ [Stock_up (PrimFloat.abs change_pct)]
    else if (change_pct <? -10)%float then
      insights ++ [Demand_drop (PrimFloat.abs change_pct)]
    else insights in
  insights.

(** Classification of the advisories by the rule that produces them. *)
Definition is_price_direction (x : insight) : bool :=
  match x with
  | Price_increased _ | Price_decreased _ | Price_stable => true
  | _ => false
  end.

Definition is_price_increased (x : insight) : bool :=
  match x with Price_increased _ => true | _ => false end.

Definition is_price_decreased (x : insight) : bool :=
  match x with Price_decreased _ => true | _ => false end.

Definition is_price_stable (x : insight) : bool :=
  match x with Price_stable => true | _ => false end.

Definition is_stock_up (x : insight) : bool :=
  match x with Stock_up _ => true | _ => false end.

Definition is_demand_drop (x : insight) : bool :=
  match x with Demand_drop _ => true | _ => false end.

Definition is_magnitude (x : insight) : bool :=
  is_stock_up x || is_demand_drop x.

(** Position of each rule in the script: price direction, festive, harvest,
    magnitude. *)
Definition rule_rank (x : insight) : nat :=
  match x with
  | Price_increased _ | Price_decreased _ | Price_stable => 0%nat
  | Festive_season => 1%nat
  | Harvest_season => 2%nat
  | Stock_up _ | Demand_drop _ => 3%nat
  end.

Definition count (p : insight -> bool) (l : list insight) : nat :=
  List.length (List.filter p l).

(** The four rules taken one at a time, each as the advisories it adds. *)
Definition price_insight (price_change : Z) : insight :=
  if price_change >? 0 then Price_increased price_change
  else if price_change <? 0 then Price_decreased (Z.abs price_change)
  else Price_stable.

Definition festive_insights (is_festive : string) : list insight :=
  if String.eqb is_festive "Yes" then [Festive_season] else [].

Definition harvest_insights (is_harvest : string) : list insight :=
  if String.eqb is_harvest "Yes" then [Harvest_season] else [].

Definition magnitude_insights (change_pct : float) : list insight :=
  if (10 <? change_pct)%float then [Stock_up (PrimFloat.abs change_pct)]
  else if (change_pct <? -10)%float then [Demand_drop (PrimFloat.abs change_pct)]
  else [].

(** ** The page: Streamlit elements and external calls *)

Definition regressor : Type := list (list float) -> result float.

(** What a run of the main content area leaves behind, in order: calls out
    of the script and elements put on the page. *)
Inductive event : Type :=
| joblib_load_called                          (* joblib.load(...) *)
| model_predict_called (X : list (list float))  (* model.predict(X)[0] *)
| st_error_loading_model (e : exn)            (* "Error loading model: {e}" *)
| st_error_making_prediction (e : exn)        (* "Error making prediction: {e}" *)
| st_columns (n : Z)
| st_metric_predicted_units (value delta : Z)
| st_metric_price_change (value : Z) (delta : float)
| st_metric_revenue (value : float)
| st_markdown_rule
| st_subheader_key_insights
| st_info_insight (x : insight)
| st_input_summary (i : Inputs)
| st_info_get_started
| st_how_this_works.

(** Elements that show a prediction or something computed from it. *)
Definition shows_result (ev : event) : bool :=
  match ev with
  | st_metric_predicted_units _ _ | st_metric_price_change _ _
  | st_metric_revenue _ | st_info_insight _ | st_input_summary _ => true
  | _ => false
  end.

Definition is_predict_call (ev : event) : bool :=
  match ev with model_predict_called _ => true | _ => false end.

Definition is_load_call (ev : event) : bool :=
  match ev with joblib_load_called => true | _ => false end.

Definition is_error (ev : event) : bool :=
  match ev with
  | st_error_loading_model _ | st_error_making_prediction _ => true
  | _ => false
  end.

(** A script fragment: it extends the trace and returns or raises. *)
Definition ui (A : Type) : Type := list event -> list event * result A.

Definition ret {A : Type} (a : A) : ui A := fun tr => (tr, Ok a).

Definition bind {A B : Type} (m : ui A) (k : A -> ui B) : ui B :=
  fun tr =>
    match m tr with
    | (tr', Ok a) => k a tr'
    | (tr', Raise e) => (tr', Raise e)
    end.

Definition emit (ev : event) : ui unit := fun tr => (tr ++ [ev], Ok tt).

Definition lift {A : Type} (r : result A) : ui A := fun tr => (tr, r).

(** [try: body / except Exception as e: handler(e)]; what the body put on
    the page before raising stays there. *)
Definition try_except {A : Type} (body : ui A) (handler : exn -> ui A) : ui A :=
  fun tr =>
    match body tr with
    | (tr', Ok a) => (tr', Ok a)
    | (tr', Raise e) => handler e tr'
    end.

(** [for x in l: f(x)] *)
Fixpoint for_each {A : Type} (l : list A) (f : A -> ui unit) : ui unit :=
  match l with
  | [] => ret tt
  | x :: l' => bind (f x) (fun _ => for_each l' f)
  end.

Declare Scope ui_scope.
Delimit Scope ui_scope with ui.
Notation "x <- m ;; k" := (bind m (fun x => k))
  (at level 61, m at next level, right associativity) : ui_scope.
Notation "m ;; k" := (bind m (fun _ => k))
  (at level 61, right associativity) : ui_scope.

Section Page.

(** The sine and cosine of the installed numpy. *)
Variables libm_sin libm_cos : float -> float.

(** The body of the [try] once the model has answered: the three metrics,
    the insights and the input summary. *)
Definition show_prediction (i : Inputs) (prediction : float) : ui unit :=
  (emit (st_columns 3) ;;
   value <- lift (Float64.to_int prediction) ;;
   delta <- lift (Float64.to_int
                    (prediction - Float64.of_int (units_sold_lag1 i))%float) ;;
   emit (st_metric_predicted_units value delta) ;;
   ratio <- lift (Float64.int_truediv (price_change i) (last_month_price i)) ;;
   emit (st_metric_price_change (price_change i) (ratio * 100)%float) ;;
   let revenue_estimate :=
     (prediction * Float64.of_int (current_price i))%float in
   emit (st_metric_revenue revenue_estimate) ;;
   emit st_markdown_rule ;;
   emit st_subheader_key_insights ;;
   let insights := insights i prediction in
   for_each insights (fun insight => emit (st_info_insight insight)) ;;
   emit (st_input_summary i))%ui.

Definition try_body (model : regressor) (i : Inputs) : ui unit :=
  (let X := input_features (numpy := numpy_float64 libm_sin libm_cos) i in
   emit (model_predict_called X) ;;
   prediction <- lift (model X) ;;
   show_prediction i prediction)%ui.

(** [if predict_button and model is not None: ... else: ...] *)
Definition main_content (predict_button : bool) (model : option regressor)
    (i : Inputs) : ui unit :=
  match predict_button, model with
  | true, Some model =>
      try_except (try_body model i)
        (fun e => emit (st_error_making_prediction e))
  | _, _ => (emit st_info_get_started ;; emit st_how_this_works)%ui
  end.

(** [load_model], the body under [@st.cache_resource]; [joblib_load] is
    what the call [joblib.load('random_forest_model.joblib')] does. *)
Definition load_model (joblib_load : result regressor) : ui (option regressor) :=
  try_except
    (emit joblib_load_called ;;
     model <- lift joblib_load ;;
     ret (Some model))%ui
    (fun e => emit (st_error_loading_model e) ;; ret None)%ui.

(** [@st.cache_resource]: the first call runs the body and stores its
    return value together with the elements it showed; later calls replay
    those elements and return the stored value. *)
Definition cache : Type := option (option regressor * list event).

Definition is_element (ev : event) : bool :=
  negb (is_load_call ev || is_predict_call ev).

Definition cached_load_model (joblib_load : result regressor) (c : cache)
    : list event -> list event * option regressor * cache :=
  fun tr =>
    match c with
    | Some (model, shown) => (tr ++ shown, model, c)
    | None =>
        match load_model joblib_load [] with
        | (evs, Ok model) =>
            (tr ++ evs, model, Some (model, List.filter is_element evs))
        | (evs, Raise _) => (tr ++ evs, None, None)
        end
    end.

(** One run of the script: model lookup, then the main content area. *)
Definition run_script (joblib_load : result regressor) (c : cache)
    (predict_button : bool) (i : Inputs) : list event * result unit * cache :=
  let '(tr, model, c') := cached_load_model joblib_load c [] in
  let '(tr', r) := main_content predict_button model i tr in
  (tr', r, c').

(** A session: the script reruns on every interaction, the cache persists. *)
Fixpoint run_session (joblib_load : result regressor) (c : cache)
    (interactions : list (bool * Inputs)) : list (list event * result unit) :=
  match interactions with
  | [] => []
  | (predict_button, i) :: rest =>
      let '(tr, r, c') := run_script joblib_load c predict_button i in
      (tr, r) :: run_session joblib_load c' rest
  end.

End Page.

(** ** Test fixtures

    The inputs of the page's worked example (February 2025, price 1500
    after 1450, 1008 units sold, neither festive nor harvest), the same with
    no units sold, and stubs for the math library and the model. *)

Definition scenario : Inputs := {|
  month_num := 2; current_year := 2025;
  current_price := 1500; last_month_price := 1450;
  units_sold_lag1 := 1008;
  is_festive := "No"; is_harvest := "No"
|}.

Definition scenario_no_sales : Inputs := {|
  month_num := 2; current_year := 2025;
  current_price := 1500; last_month_price := 1450;
  units_sold_lag1 := 0;
  is_festive := "No"; is_harvest := "No"
|}.

Definition stub_libm : float -> float := fun _ => 0%float.

(** The values numpy returns for the sine at the angles of January and
    December, and for the cosine at the angle of December. *)
Definition table_sin (x : float) : float :=
  if (x <? 1)%float then 0x1.fffffffffffffp-2%float
  else (-0x1.1a62633145c07p-52)%float.

Definition table_cos (x : float) : float := 1%float.

Definition stub_model (answer : result float) : regressor := fun _ => answer.

(** The revenue metric for a prediction of 1200 units at price [c] is the
    integer [1200 * c]. *)
Definition revenue_of_1200_exact (c : Z) : bool :=
  match Float64.to_int (1200 * Float64.of_int c)%float with
  | Ok z => z =? 1200 * c
  | Raise _ => false
  end.

(** ** The input summary

    The table built under the "Input Summary" expander, which
    [st_input_summary] stands for in a run.  Its [Value] column holds Python
    objects of two kinds: strings and one int. *)
Inductive cell : Type :=
  | Text (s : string)
  | Number (z : Z).

(** [str(z)] for a Python int. *)
Definition str_of_int (z : Z) : string :=
  DecimalString.NilEmpty.string_of_int (Z.to_int z).

(** A comma after every third digit, counted from the units; the digits are
    given least significant first. *)
Fixpoint commas (digits : list ascii) : list ascii :=
  match digits with
  | a :: b :: c :: ((_ :: _) as rest) =>
      a :: b :: c :: ","%char :: commas rest
  | _ => digits
  end.

(** [f"{z:,}"]: the sign, then the decimal digits in groups of three. *)
Definition format_thousands (z : Z) : string :=
  let digits := list_ascii_of_string (str_of_int (Z.abs z)) in
  let grouped := string_of_list_ascii (rev (commas (rev digits))) in
  if z <? 0 then String "-"%char grouped else grouped.

(** The naira sign U+20A6, as its three UTF-8 bytes. *)
Definition naira : string :=
  String (ascii_of_nat 226)
    (String (ascii_of_nat 130) (String (ascii_of_nat 166) EmptyString)).

Definition summary_parameters : list string :=
  ["Prediction Month"; "Months Since Start"; "Current Price";
   "Last Month Price"; "Price Change"; "Last Month Sales";
   "Festive Month"; "Harvest Season"]%string.

Definition summary_values (prediction_month : string) (i : Inputs)
    : list cell :=
  [Text prediction_month;
   Number (months_since_start i);
   Text (naira ++ format_thousands (current_price i));
   Text (naira ++ format_thousands (last_month_price i));
   Text (naira ++ format_thousands (price_change i));
   Text (format_thousands (units_sold_lag1 i) ++ " units");
   Text (is_festive i);
   Text (is_harvest i)]%string.

(** [pd.DataFrame({'Parameter': ..., 'Value': ...})]: one row per position;
    columns of different lengths are refused. *)
Definition pd_DataFrame {A B : Type} (parameter : list A) (value : list B)
    : result (list (A * B)) :=
  if (List.length parameter =? List.length value)%nat
  then Ok (List.combine parameter value)
  else Raise (ValueError "All arrays must be of the same length").

Definition summary_df (prediction_month : string) (i : Inputs)
    : result (list (string * cell)) :=
  pd_DataFrame summary_parameters (summary_values prediction_month i).

(** ** Auxiliary notions for runs and float results *)

(** What one run of the main content area shows on an empty page. *)
Definition page (libm_sin libm_cos : float -> float)
    (model : option regressor) (x : bool * Inputs) : list event :=
  fst (main_content libm_sin libm_cos (fst x) model (snd x) []).

(** A script fragment that only adds to what is already on the page. *)
Definition appends {A : Type} (m : ui A) : Prop :=
  forall tr, m tr = (tr ++ fst (m []), snd (m [])).

(** Floats that [int] accepts: zeros and finite numbers. *)
Definition finite_or_zero (x : spec_float) : bool :=
  match x with
  | S754_zero _ | S754_finite _ _ _ => true
  | _ => false
  end.

(** The float of a positive unit count is positive and below 2^13. *)
Definition small_positive (z : Z) : bool :=
  match Prim2SF (Float64.of_int z) with
  | S754_finite false _ e => e <=? -40
  | _ => false
  end.

(** The most negative finite float64. *)
Definition lowest : float :=
  SF2Prim (S754_finite true 9007199254740991 971).

Definition lowest_minus_finite (z : Z) : bool :=
  finite_or_zero (Prim2SF (lowest - Float64.of_int z)).

(** Shapes of float results used by the order arguments: the float of a
    small positive integer is normal, and a result is positive or negative
    when it is a nonzero number or an infinity of that sign. *)
Definition normal_positive (z : Z) : bool :=
  match Prim2SF (Float64.of_int z) with
  | S754_finite false m e =>
      (Zpos (digits2_pos m) =? 53) && (-52 <=? e) && (e <=? -39)
  | _ => false
  end.

Definition positive_float (x : spec_float) : bool :=
  match x with
  | S754_infinity false | S754_finite false _ _ => true
  | _ => false
  end.

Definition negative_float (x : spec_float) : bool :=
  match x with
  | S754_infinity true | S754_finite true _ _ => true
  | _ => false
  end.

(** The characters of a thousands rendering that are not separators. *)
Definition not_comma (c : ascii) : bool := negb (Ascii.eqb c ","%char).

(** What is assumed of a math-library function at one argument: the result
    is a number, within [eps] of the exact function. *)
Definition accurate_at (f : float -> float) (g : R -> R) (eps : R)
    (x : float) : Prop :=
  finite_or_zero (Prim2SF (f x)) = true /\
  (Rabs (float_value (f x) - g (float_value x)) <= eps)%R.

(** * Properties *)

(** ** Binary64 facts used below *)

Lemma Prim2SF_inj (x y : float) : Prim2SF x = Prim2SF y -> x = y.
Proof.
  intros H.
  rewrite <- (SF2Prim_Prim2SF x), <- (SF2Prim_Prim2SF y).
  now rewrite H.
Qed.

Lemma Prim2SF_zero : Prim2SF (Float64.of_int 0) = S754_zero false.
Proof. vm_compute. reflexivity. Qed.

Lemma Prim2SF_ten : Prim2SF 10 = S754_finite false 5629499534213120 (-49).
Proof. vm_compute. reflexivity. Qed.

Lemma Prim2SF_minus_ten : Prim2SF (-10) = S754_finite true 5629499534213120 (-49).
Proof. vm_compute. reflexivity. Qed.

Lemma Prim2SF_hundred : Prim2SF 100 = S754_finite false 7036874417766400 (-46).
Proof. vm_compute. reflexivity. Qed.

(** No float is both above 10 and below -10. *)
Lemma above_ten_not_below_minus_ten (c : float) :
  (10 <? c)%float = true -> (c <? -10)%float = false.
Proof.
  rewrite !FloatAxioms.ltb_spec, Prim2SF_ten, Prim2SF_minus_ten.
  unfold SFltb, SFcompare.
  destruct (Prim2SF c) as [s|s| |s m e]; try destruct s;
    try discriminate; reflexivity.
Qed.

(** Subtracting the float of the integer 0 changes nothing. *)
Lemma sub_of_int_zero (p : float) : (p - Float64.of_int 0)%float = p.
Proof.
  apply Prim2SF_inj.
  rewrite FloatAxioms.sub_spec, Prim2SF_zero.
  unfold SF64sub, SFsub.
  destruct (Prim2SF p) as [s|s| |s m e]; try destruct s; reflexivity.
Qed.

(** [change_pct] with no sales last month: the IEEE quotient by zero. *)
Lemma change_pct_zero_divisor (p : float) :
  change_pct p 0 =
    match Prim2SF p with
    | S754_finite s _ _ | S754_infinity s =>
        if s then neg_infinity else infinity
    | S754_zero _ | S754_nan => nan
    end.
Proof.
  unfold change_pct. rewrite sub_of_int_zero.
  apply Prim2SF_inj.
  rewrite FloatAxioms.mul_spec, FloatAxioms.div_spec, Prim2SF_zero, Prim2SF_hundred.
  destruct (Prim2SF p) as [s|s| |s m e]; try destruct s; vm_compute; reflexivity.
Qed.

(** ** The shape of the insight list *)

Lemma insights_shape (i : Inputs) (p : float) :
  insights i p =
    price_insight (price_change i)
      :: festive_insights (is_festive i)
      ++ harvest_insights (is_harvest i)
      ++ magnitude_insights (change_pct p (units_sold_lag1 i)).
Proof.
  unfold insights, price_insight, festive_insights, harvest_insights,
    magnitude_insights.
  destruct (price_change i >? 0), (price_change i <? 0),
    (String.eqb (is_festive i) "Yes"), (String.eqb (is_harvest i) "Yes"),
    (10 <? change_pct p (units_sold_lag1 i))%float,
    (change_pct p (units_sold_lag1 i) <? -10)%float; reflexivity.
Qed.

Lemma price_insight_is_price_direction (pc : Z) :
  is_price_direction (price_insight pc) = true.
Proof.
  unfold price_insight. destruct (pc >? 0), (pc <? 0); reflexivity.
Qed.

Lemma festive_insights_cases (s : string) :
  festive_insights s = [] \/ festive_insights s = [Festive_season].
Proof. unfold festive_insights. destruct (String.eqb s "Yes"); auto. Qed.

Lemma harvest_insights_cases (s : string) :
  harvest_insights s = [] \/ harvest_insights s = [Harvest_season].
Proof. unfold harvest_insights. destruct (String.eqb s "Yes"); auto. Qed.

Lemma magnitude_insights_cases (c : float) :
  magnitude_insights c = [] \/
  magnitude_insights c = [Stock_up (PrimFloat.abs c)] \/
  magnitude_insights c = [Demand_drop (PrimFloat.abs c)].
Proof.
  unfold magnitude_insights.
  destruct (10 <? c)%float, (c <? -10)%float; auto.
Qed.

(** Case analysis on what the festive, harvest and magnitude rules add. *)
Ltac rule_cases i p :=
  destruct (festive_insights_cases (is_festive i)) as [-> | ->],
    (harvest_insights_cases (is_harvest i)) as [-> | ->],
    (magnitude_insights_cases (change_pct p (units_sold_lag1 i)))
      as [-> | [-> | ->]].

Lemma filter_price_direction (i : Inputs) (p : float) :
  List.filter is_price_direction (insights i p) =
    [price_insight (price_change i)].
Proof.
  rewrite insights_shape. cbn [List.filter].
  rewrite price_insight_is_price_direction. f_equal.
  rule_cases i p; reflexivity.
Qed.

Lemma filter_magnitude (i : Inputs) (p : float) :
  List.filter is_magnitude (insights i p) =
    magnitude_insights (change_pct p (units_sold_lag1 i)).
Proof.
  rewrite insights_shape. cbn [List.filter].
  replace (is_magnitude (price_insight (price_change i))) with false
    by (unfold price_insight;
        destruct (price_change i >? 0), (price_change i <? 0); reflexivity).
  rule_cases i p; reflexivity.
Qed.

Lemma existsb_filter {A : Type} (f g : A -> bool) (l : list A) :
  (forall x, f x = true -> g x = true) ->
  existsb f (List.filter g l) = existsb f l.
Proof.
  intros Hfg. induction l as [|x l IH]; [reflexivity|].
  cbn. destruct (g x) eqn:Hg; cbn; rewrite IH; [reflexivity|].
  destruct (f x) eqn:Hf; [|reflexivity].
  apply Hfg in Hf. congruence.
Qed.

(** ** Months since January 2017 *)

(** C7: the time index is [(year - 2017) * 12 + month]; for a fixed year it
    is strictly increasing in the month, for every month (December
    included) one more year adds exactly 12, and no bound limits it: for
    every month every bound is exceeded at some year. *)
Theorem months_since_start_linear (i : Inputs) (year month : Z) :
  months_since_start i = (current_year i - 2017) * 12 + month_num i /\
  months_since_start_of year month = (year - 2017) * 12 + month /\
  (forall m1 m2 : Z,
     m1 < m2 -> months_since_start_of year m1 < months_since_start_of year m2) /\
  months_since_start_of (year + 1) month
    = months_since_start_of year month + 12 /\
  (forall bound : Z, exists year', bound < months_since_start_of year' month).
Proof.
  unfold months_since_start, months_since_start_of.
  split; [reflexivity |]. split; [reflexivity |].
  split; [intros m1 m2 Hlt; lia |]. split; [lia |].
  intros bound. exists (Z.max (bound - month) 0 + 2018). lia.
Qed.

(** ** Price direction *)

(** C3: the price-direction rule yields exactly one advisory, chosen by
    comparing the two prices: "increased" (by the difference) exactly when
    the current price is above last month's, "decreased" (by the absolute
    difference) exactly when it is below, and "stable" exactly when the two
    prices are equal; with equal prices it is the only price advisory. *)
Theorem price_direction_three_way (i : Inputs) (p : float) :
  let difference := current_price i - last_month_price i in
  List.filter is_price_direction (insights i p) =
    [if difference >? 0 then Price_increased difference
     else if difference <? 0 then Price_decreased (Z.abs difference)
     else Price_stable] /\
  count is_price_direction (insights i p) = 1%nat /\
  (existsb is_price_increased (insights i p) = true <->
   current_price i > last_month_price i) /\
  (existsb is_price_decreased (insights i p) = true <->
   current_price i < last_month_price i) /\
  (existsb is_price_stable (insights i p) = true <->
   current_price i = last_month_price i) /\
  (current_price i = last_month_price i <->
   List.filter is_price_direction (insights i p) = [Price_stable]).
Proof.
  intros difference.
  pose proof (filter_price_direction i p) as Hf.
  assert (Hinc : existsb is_price_increased (insights i p)
                 = is_price_increased (price_insight (price_change i))).
  { rewrite <- (existsb_filter is_price_increased is_price_direction)
      by (intros []; cbn; congruence).
    rewrite Hf. cbn. apply orb_false_r. }
  assert (Hdec : existsb is_price_decreased (insights i p)
                 = is_price_decreased (price_insight (price_change i))).
  { rewrite <- (existsb_filter is_price_decreased is_price_direction)
      by (intros []; cbn; congruence).
    rewrite Hf. cbn. apply orb_false_r. }
  assert (Hst : existsb is_price_stable (insights i p)
                = is_price_stable (price_insight (price_change i))).
  { rewrite <- (existsb_filter is_price_stable is_price_direction)
      by (intros []; cbn; congruence).
    rewrite Hf. cbn. apply orb_false_r. }
  unfold count. rewrite Hf, Hinc, Hdec, Hst.
  unfold price_insight, price_change. fold difference.
  assert (Hd : difference = current_price i - last_month_price i)
    by reflexivity.
  clearbody difference.
  destruct (difference >? 0) eqn:Hgt;
    [|destruct (difference <? 0) eqn:Hlt]; cbn;
    repeat split; intros; try lia; try discriminate; try reflexivity.
Qed.

(** ** Magnitude advisories *)

(** The worked example with a prediction of 1200: about 19.05 percent more
    than the 1008 units of last month. *)
Lemma scenario_stock_up :
  insights scenario 1200
  = [Price_increased 50; Stock_up 0x1.30c30c30c30c3p+4].
Proof. vm_compute. reflexivity. Qed.

Lemma scenario_reduce_inventory :
  insights
    {| month_num := 2; current_year := 2025; current_price := 1450;
       last_month_price := 1500; units_sold_lag1 := 1000;
       is_festive := "Yes"; is_harvest := "Yes" |} 850
  = [Price_decreased 50; Festive_season; Harvest_season; Demand_drop 15].
Proof. vm_compute. reflexivity. Qed.

Lemma scenario_exactly_ten_percent :
  change_pct 1100 1000 = 10%float /\ change_pct 900 1000 = (-10)%float.
Proof. split; vm_compute; reflexivity. Qed.

(** C4: with c the float64 value of
    [(prediction - units_sold_lag1) / units_sold_lag1 * 100], the stock-up
    advisory is present exactly when c > 10 and the reduce-inventory
    advisory exactly when c < -10; they never come together, they depend on
    the prediction and last month's units alone (prices and season choices
    play no part), and at exactly 10 or -10 neither is present.  A
    prediction of 1200 after 1008 units gives the stock-up advisory with
    19.05 percent; 1100 or 900 after 1000 units gives none.  Nothing here
    needs last month's units to be nonzero. *)
Theorem magnitude_advisories (i : Inputs) (p : float) :
  let units := Float64.of_int (units_sold_lag1 i) in
  let c := ((p - units) / units * 100)%float in
  (existsb is_stock_up (insights i p) = true <-> (10 <? c)%float = true) /\
  (existsb is_demand_drop (insights i p) = true <-> (c <? -10)%float = true) /\
  existsb is_stock_up (insights i p)
    && existsb is_demand_drop (insights i p) = false /\
  List.filter is_magnitude (insights i p) =
    (if (10 <? c)%float then [Stock_up (PrimFloat.abs c)]
     else if (c <? -10)%float then [Demand_drop (PrimFloat.abs c)]
     else []) /\
  (forall i' : Inputs,
     units_sold_lag1 i' = units_sold_lag1 i ->
     List.filter is_magnitude (insights i' p)
     = List.filter is_magnitude (insights i p)) /\
  (c = 10%float \/ c = (-10)%float ->
   List.filter is_magnitude (insights i p) = []) /\
  (units_sold_lag1 i = 1008 ->
   List.filter is_magnitude (insights i 1200)
   = [Stock_up 0x1.30c30c30c30c3p+4]) /\
  (units_sold_lag1 i = 1000 ->
   List.filter is_magnitude (insights i 1100) = [] /\
   List.filter is_magnitude (insights i 900) = []).
Proof.
  intros units c.
  assert (Hc : c = change_pct p (units_sold_lag1 i)) by reflexivity.
  clearbody c. clear units.
  pose proof (filter_magnitude i p) as Hf. rewrite <- Hc in Hf.
  assert (Hup : existsb is_stock_up (insights i p) = (10 <? c)%float).
  { rewrite <- (existsb_filter is_stock_up is_magnitude)
      by (intros []; cbn; congruence).
    rewrite Hf. unfold magnitude_insights.
    destruct (10 <? c)%float, (c <? -10)%float; reflexivity. }
  assert (Hdown : existsb is_demand_drop (insights i p) = (c <? -10)%float).
  { rewrite <- (existsb_filter is_demand_drop is_magnitude)
      by (intros []; cbn; try congruence; apply orb_true_r).
    rewrite Hf. unfold magnitude_insights.
    destruct (10 <? c)%float eqn:Hgt.
    - rewrite (above_ten_not_below_minus_ten c Hgt). reflexivity.
    - destruct (c <? -10)%float; reflexivity. }
  rewrite Hup, Hdown, Hf.
  split; [tauto |]. split; [tauto |].
  split.
  { destruct (10 <? c)%float eqn:Hgt; [|reflexivity].
    rewrite (above_ten_not_below_minus_ten c Hgt). reflexivity. }
  split; [reflexivity |].
  split.
  { intros i' Hi'. rewrite (filter_magnitude i' p), Hi', <- Hc.
    reflexivity. }
  split.
  { intros [-> | ->]; vm_compute; reflexivity. }
  split.
  { intros Hu. rewrite (filter_magnitude i 1200), Hu.
    vm_compute. reflexivity. }
  intros Hu. rewrite (filter_magnitude i 1100), (filter_magnitude i 900), Hu.
  split; vm_compute; reflexivity.
Qed.

(** ** Purity *)

Lemma for_each_emit {A : Type} (f : A -> event) (l : list A) :
  forall tr, for_each l (fun x => emit (f x)) tr = (tr ++ List.map f l, Ok tt).
Proof.
  induction l as [|x l IH]; intros tr; cbn.
  - now rewrite app_nil_r.
  - unfold bind, emit. rewrite IH, <- app_assoc. reflexivity.
Qed.

(** C9: the advisory list is a function of the price change, the two season
    choices, last month's units and the prediction, and of nothing else:
    two runs that agree on these produce the same list in the same order,
    and the loop that displays it puts the same boxes on the page whatever
    was shown before.  The generator is a plain function outside the page
    monad: it draws no random number and touches neither the page nor any
    other state. *)
Theorem insights_deterministic (i1 i2 : Inputs) (p : float) :
  price_change i1 = price_change i2 ->
  is_festive i1 = is_festive i2 ->
  is_harvest i1 = is_harvest i2 ->
  units_sold_lag1 i1 = units_sold_lag1 i2 ->
  insights i1 p = insights i2 p /\
  (forall tr1 tr2,
     for_each (insights i1 p) (fun x => emit (st_info_insight x)) tr1
     = (tr1 ++ List.map st_info_insight (insights i1 p), Ok tt) /\
     for_each (insights i2 p) (fun x => emit (st_info_insight x)) tr2
     = (tr2 ++ List.map st_info_insight (insights i1 p), Ok tt)).
Proof.
  intros Hp Hf Hh Hu.
  assert (H : insights i1 p = insights i2 p)
    by (rewrite !insights_shape, Hp, Hf, Hh, Hu; reflexivity).
  split; [exact H|].
  intros tr1 tr2. rewrite <- H. split; apply for_each_emit.
Qed.

Lemma insights_deterministic_witness :
  insights
    {| month_num := 2; current_year := 2025; current_price := 1500;
       last_month_price := 1450; units_sold_lag1 := 1008;
       is_festive := "No"; is_harvest := "Yes" |} 1200
  = insights
    {| month_num := 11; current_year := 2031; current_price := 2000;
       last_month_price := 1950; units_sold_lag1 := 1008;
       is_festive := "No"; is_harvest := "Yes" |} 1200.
Proof. apply insights_deterministic; reflexivity. Defined.

(** ** Order and size of the list *)

(** C10: the list has between one and four entries, starts with a
    price-direction advisory, and lists its advisories in the order of the
    rules (price direction, festive, harvest, magnitude), each rule at most
    once. *)
Theorem insights_nonempty_ordered (i : Inputs) (p : float) :
  (1 <= List.length (insights i p) <= 4)%nat /\
  (exists x rest, insights i p = x :: rest /\ is_price_direction x = true) /\
  StronglySorted lt (List.map rule_rank (insights i p)).
Proof.
  rewrite insights_shape.
  pose proof (price_insight_is_price_direction (price_change i)) as Hpd.
  assert (Hrank : rule_rank (price_insight (price_change i)) = 0%nat)
    by (destruct (price_insight (price_change i)); try discriminate;
        reflexivity).
  split; [|split].
  - rule_cases i p; cbn; lia.
  - eauto.
  - cbn [List.map]. rewrite Hrank.
    rule_cases i p; cbn;
      repeat (constructor; try lia).
Qed.

(** ** The month selectbox *)

Lemma month_num_of_february : month_num_of "February" = Ok 2.
Proof. reflexivity. Qed.

(** Whatever name the selectbox returns, the month number is in 1..12. *)
Lemma month_num_of_range (prediction_month : string) (m : Z) :
  month_num_of prediction_month = Ok m -> 1 <= m <= 12.
Proof.
  unfold month_num_of, month_names. cbn [index].
  repeat match goal with
         | |- context [String.eqb ?a ?b] => destruct (String.eqb a b)
         end;
    intros H; inversion H; lia.
Qed.

(** ** The feature vector *)

Lemma flag_cases (s : string) :
  (if String.eqb s "Yes" then 1 else 0) = 0 /\ s <> "Yes"%string \/
  (if String.eqb s "Yes" then 1 else 0) = 1 /\ s = "Yes"%string.
Proof.
  destruct (String.eqb_spec s "Yes"); [right | left]; auto.
Qed.

Lemma all_from_spec (f : Z -> bool) (n : nat) :
  forall lo z, all_from lo n f = true -> lo <= z < lo + Z.of_nat n ->
               f z = true.
Proof.
  induction n as [|n IH]; intros lo z H Hz; [lia|].
  cbn [all_from] in H. apply andb_prop in H as [H1 H2].
  destruct (Z.eq_dec z lo) as [->|Hne]; [assumption|].
  apply (IH (lo + 1)); [assumption|lia].
Qed.

Lemma small_ints_roundtrip :
  all_from (-100000) (Z.to_nat 200001) int_roundtrips = true.
Proof. vm_compute. reflexivity. Qed.

Lemma of_int_exact (z : Z) :
  -100000 <= z <= 100000 -> Float64.to_int (Float64.of_int z) = Ok z.
Proof.
  intros Hz.
  assert (H : int_roundtrips z = true)
    by (apply (all_from_spec _ _ _ _ small_ints_roundtrip); lia).
  unfold int_roundtrips in H.
  destruct (Float64.to_int (Float64.of_int z)) as [z'|]; [|discriminate].
  apply Z.eqb_eq in H. now subst.
Qed.

(** Within the widget ranges every integer feature is carried by the
    float64 row without rounding. *)
Lemma integer_features_exact (i : Inputs) :
  in_widget_ranges i = true ->
  List.map (fun z => Float64.to_int (Float64.of_int z))
    [(current_year i - 2017) * 12 + month_num i; units_sold_lag1 i;
     current_price i - last_month_price i;
     is_festive_num i; is_harvest_num i]
  = List.map Ok
    [(current_year i - 2017) * 12 + month_num i; units_sold_lag1 i;
     current_price i - last_month_price i;
     is_festive_num i; is_harvest_num i].
Proof.
  unfold in_widget_ranges. rewrite !andb_true_iff, !Z.leb_le.
  intros Hr. cbn [List.map].
  unfold is_festive_num, is_harvest_num.
  destruct (flag_cases (is_festive i)) as [[-> _] | [-> _]],
    (flag_cases (is_harvest i)) as [[-> _] | [-> _]];
    rewrite !of_int_exact by lia; reflexivity.
Qed.

(** C1: the deriver returns one row of exactly seven entries, in the order
    time index, last month's units, price change, month sine, month cosine,
    festive flag, harvest flag, each computed by its formula; the flags are
    0 or 1, and 1 exactly for the choice "Yes".  This holds for any
    implementation of the numeric operations, binary64 and exact alike; and
    within the widget ranges the float64 row carries the five integers
    without rounding. *)
Theorem feature_vector_layout {F : Type} {numpy : Numpy F} (i : Inputs) :
  input_features i =
    [[ np_of_int ((current_year i - 2017) * 12 + month_num i);
       np_of_int (units_sold_lag1 i);
       np_of_int (current_price i - last_month_price i);
       np_sin (np_div (np_mul (np_mul (np_of_int 2) np_pi)
                              (np_of_int (month_num i))) (np_of_int 12));
       np_cos (np_div (np_mul (np_mul (np_of_int 2) np_pi)
                              (np_of_int (month_num i))) (np_of_int 12));
       np_of_int (is_festive_num i);
       np_of_int (is_harvest_num i) ]] /\
  List.map (@List.length F) (input_features i) = [7%nat] /\
  (is_festive_num i = 0 \/ is_festive_num i = 1) /\
  (is_harvest_num i = 0 \/ is_harvest_num i = 1) /\
  (is_festive_num i = 1 <-> is_festive i = "Yes"%string) /\
  (is_harvest_num i = 1 <-> is_harvest i = "Yes"%string) /\
  (in_widget_ranges i = true ->
   List.map (fun z => Float64.to_int (Float64.of_int z))
     [(current_year i - 2017) * 12 + month_num i; units_sold_lag1 i;
      current_price i - last_month_price i;
      is_festive_num i; is_harvest_num i]
   = List.map Ok
     [(current_year i - 2017) * 12 + month_num i; units_sold_lag1 i;
      current_price i - last_month_price i;
      is_festive_num i; is_harvest_num i]).
Proof.
  split; [reflexivity|]. split; [reflexivity|].
  split; [|split; [|split; [|split]]].
  5: exact (integer_features_exact i).
  all: unfold is_festive_num, is_harvest_num;
    destruct (String.eqb_spec (is_festive i) "Yes"),
      (String.eqb_spec (is_harvest i) "Yes");
    repeat split; auto; intros; try discriminate; try contradiction.
Qed.

Lemma feature_vector_layout_witness :
  in_widget_ranges scenario = true /\
  List.map (fun z => Float64.to_int (Float64.of_int z)) [98; 1008; 50; 0; 0]
  = [Ok 98; Ok 1008; Ok 50; Ok 0; Ok 0].
Proof.
  split; [reflexivity|].
  destruct (feature_vector_layout
              (numpy := numpy_float64 stub_libm stub_libm) scenario)
    as (_ & _ & _ & _ & _ & _ & Hexact).
  exact (Hexact eq_refl).
Defined.

(** For the page's worked example the binary64 row is 98, 1008, 50, the
    sine and cosine of the double that [2 * np.pi * 2 / 12] evaluates to
    (1.0471975511965976), 0, 0. *)
Lemma feature_vector_scenario (libm_sin libm_cos : float -> float) :
  input_features (numpy := numpy_float64 libm_sin libm_cos) scenario
  = [[ 98; 1008; 50; libm_sin 0x1.0c152382d7365p+0;
       libm_cos 0x1.0c152382d7365p+0; 0; 0 ]]%float.
Proof.
  unfold input_features, month_sin, month_cos, month_sin_of, month_cos_of.
  cbn [np_sin np_cos np_of_int numpy_float64].
  repeat f_equal; vm_compute; reflexivity.
Qed.

(** ** The cyclical encoding *)

(** Two numbers within [eps] of a point of the unit circle are within
    [4 eps + 2 eps^2] of the circle. *)
Lemma near_unit_circle (s c S C eps : R) :
  (Rabs (s - S) <= eps -> Rabs (c - C) <= eps -> S ^ 2 + C ^ 2 = 1 ->
   Rabs (s ^ 2 + c ^ 2 - 1) <= 4 * eps + 2 * eps ^ 2)%R.
Proof.
  intros Hs Hc Hu.
  assert (Hs' : (- eps <= s - S <= eps)%R)
    by (unfold Rabs in Hs; destruct (Rcase_abs (s - S)); lra).
  assert (Hc' : (- eps <= c - C <= eps)%R)
    by (unfold Rabs in Hc; destruct (Rcase_abs (c - C)); lra).
  clear Hs Hc.
  assert (-1 <= S <= 1)%R by nra.
  assert (-1 <= C <= 1)%R by nra.
  assert (0 <= eps)%R by lra.
  apply Rabs_le.
  replace (s ^ 2 + c ^ 2 - 1)%R
    with ((s - S) ^ 2 + 2 * (s - S) * S + (c - C) ^ 2 + 2 * (c - C) * C)%R
    by (rewrite <- Hu; ring).
  set (a := (s - S)%R) in *. set (b := (c - C)%R) in *.
  assert (a ^ 2 <= eps ^ 2)%R by nra.
  assert (b ^ 2 <= eps ^ 2)%R by nra.
  assert (- eps <= a * S <= eps)%R by nra.
  assert (- eps <= b * C <= eps)%R by nra.
  nra.
Qed.

Lemma PI_bounds : (3141 / 1000 < PI < 3143 / 1000)%R.
Proof.
  pose proof (Machin.PI_2_3_7_ineq 1) as [Hlo Hhi].
  unfold Machin.PI_2_3_7_tg, tg_alt, Ratan_seq in Hlo, Hhi.
  simpl in Hlo, Hhi.
  lra.
Qed.

Lemma Rabs_le_between (a b : R) : (Rabs a <= b -> - b <= a <= b)%R.
Proof. unfold Rabs. destruct (Rcase_abs a); lra. Qed.

Lemma sin_abs_le (x : R) : (Rabs (sin x) <= Rabs x)%R.
Proof.
  pose proof PI_bounds as HPI.
  pose proof (SIN_bound x) as Hb.
  destruct (Rtotal_order x 0) as [Hneg | [-> | Hpos]].
  - pose proof (sin_gt_x x Hneg) as Hgt.
    rewrite (Rabs_left x Hneg).
    destruct (Rle_lt_dec x (-1)) as [Hle | Hlt].
    + apply Rabs_le. lra.
    + assert (0 <= sin (- x))%R by (apply sin_ge_0; lra).
      rewrite sin_neg in H. apply Rabs_le. lra.
  - rewrite sin_0. lra.
  - pose proof (sin_lt_x x Hpos) as Hlt.
    rewrite (Rabs_right x) by lra.
    destruct (Rle_lt_dec 1 x) as [Hle | Hlt1].
    + apply Rabs_le. lra.
    + assert (0 <= sin x)%R by (apply sin_ge_0; lra).
      apply Rabs_le. lra.
Qed.

Lemma sin_lipschitz (p q : R) : (Rabs (sin p - sin q) <= Rabs (p - q))%R.
Proof.
  rewrite form4, !Rabs_mult.
  pose proof (sin_abs_le ((p - q) / 2)) as Hs.
  pose proof (COS_bound ((p + q) / 2)) as Hc.
  assert (Hc' : (Rabs (cos ((p + q) / 2)) <= 1)%R) by (apply Rabs_le; lra).
  replace (Rabs ((p - q) / 2)) with (Rabs (p - q) / 2)%R in Hs.
  2:{ unfold Rdiv. rewrite Rabs_mult, (Rabs_right (/ 2)) by lra. reflexivity. }
  rewrite (Rabs_right 2) by lra.
  pose proof (Rabs_pos (sin ((p - q) / 2))).
  pose proof (Rabs_pos (cos ((p + q) / 2))).
  nra.
Qed.

Lemma cos_lipschitz (p q : R) : (Rabs (cos p - cos q) <= Rabs (p - q))%R.
Proof.
  rewrite form2, !Rabs_mult.
  pose proof (sin_abs_le ((p - q) / 2)) as Hs.
  pose proof (SIN_bound ((p + q) / 2)) as Hc.
  assert (Hc' : (Rabs (sin ((p + q) / 2)) <= 1)%R) by (apply Rabs_le; lra).
  replace (Rabs ((p - q) / 2)) with (Rabs (p - q) / 2)%R in Hs.
  2:{ unfold Rdiv. rewrite Rabs_mult, (Rabs_right (/ 2)) by lra. reflexivity. }
  rewrite (Rabs_left (-2)) by lra.
  pose proof (Rabs_pos (sin ((p - q) / 2))).
  pose proof (Rabs_pos (sin ((p + q) / 2))).
  nra.
Qed.

(** Turns [float_value] of a closed float into a quotient of integers. *)
Ltac float_value_of x :=
  unfold float_value;
  let v := eval vm_compute in (Prim2SF x) in
  replace (Prim2SF x) with v by (vm_compute; reflexivity);
  cbv beta iota; unfold powerRZ;
  repeat match goal with
         | |- context [Pos.to_nat ?p] =>
             let n := eval vm_compute in (Pos.to_nat p) in
             change (Pos.to_nat p) with n
         end;
  simpl pow.

Section CyclicalEncoding.

Variables libm_sin libm_cos : float -> float.

Let angle (m : Z) : float :=
  month_angle (numpy := numpy_float64 libm_sin libm_cos) m.

(** The float angle of each month is a number, within 1/250 of the exact
    angle. *)
Lemma month_angle_value (m : Z) :
  1 <= m <= 12 ->
  finite_or_zero (Prim2SF (angle m)) = true /\
  (Rabs (float_value (angle m) - 2 * PI * IZR m / 12) <= 1 / 250)%R.
Proof.
  intros Hm. pose proof PI_bounds as HPI.
  assert (Hcases : m = 1 \/ m = 2 \/ m = 3 \/ m = 4 \/ m = 5 \/ m = 6 \/
                   m = 7 \/ m = 8 \/ m = 9 \/ m = 10 \/ m = 11 \/ m = 12)
    by lia.
  unfold angle.
  repeat (destruct Hcases as [-> | Hcases]); try subst m;
    (split; [vm_compute; reflexivity |]);
    match goal with
    | |- context [float_value ?x] => float_value_of x
    end;
    apply Rabs_le; lra.
Qed.

(** A result within [eps] of the exact function at the float angle is
    within [eps + 1/250] of the exact function at the exact angle. *)
Lemma accurate_at_month (f : float -> float) (g : R -> R) (eps : R) (m : Z) :
  (forall p q, Rabs (g p - g q) <= Rabs (p - q))%R ->
  1 <= m <= 12 ->
  accurate_at f g eps (angle m) ->
  (Rabs (float_value (f (angle m)) - g (2 * PI * IZR m / 12))
   <= eps + 1 / 250)%R.
Proof.
  intros Hg Hm [_ Ha].
  destruct (month_angle_value m Hm) as [_ Hv].
  pose proof (Hg (float_value (angle m)) (2 * PI * IZR m / 12)%R) as Hl.
  replace (float_value (f (angle m)) - g (2 * PI * IZR m / 12))%R
    with ((float_value (f (angle m)) - g (float_value (angle m)))
          + (g (float_value (angle m)) - g (2 * PI * IZR m / 12)))%R by ring.
  eapply Rle_trans; [apply Rabs_triang | lra].
Qed.

(** C8: in the running float64 program, for every month 1..12 and a math
    library whose sine and cosine are within eps of the exact functions at
    the angles passed to them: the angle is a number within 1/250 of
    2 pi month / 12, the encoding is within eps + 1/250 of the exact sine
    and cosine of that angle and within 4 eps + 2 eps^2 of the unit circle;
    December's sine is within eps + 1/250 of 0 and January's of 1/2, so the
    two differ by 1/2 up to 2 eps + 1/125, where the month numbers differ
    by 11. *)
Theorem cyclical_encoding (eps : R) (m : Z) :
  1 <= m <= 12 ->
  accurate_at libm_sin sin eps (angle m) ->
  accurate_at libm_cos cos eps (angle m) ->
  accurate_at libm_sin sin eps (angle 12) ->
  accurate_at libm_sin sin eps (angle 1) ->
  let month_sin := month_sin_of (numpy := numpy_float64 libm_sin libm_cos) in
  let month_cos := month_cos_of (numpy := numpy_float64 libm_sin libm_cos) in
  (finite_or_zero (Prim2SF (angle m)) = true /\
   (Rabs (float_value (angle m) - 2 * PI * IZR m / 12) <= 1 / 250)%R) /\
  (finite_or_zero (Prim2SF (month_sin m)) = true /\
   finite_or_zero (Prim2SF (month_cos m)) = true) /\
  (Rabs (float_value (month_sin m) - sin (2 * PI * IZR m / 12))
   <= eps + 1 / 250)%R /\
  (Rabs (float_value (month_cos m) - cos (2 * PI * IZR m / 12))
   <= eps + 1 / 250)%R /\
  (Rabs (float_value (month_sin m) ^ 2 + float_value (month_cos m) ^ 2 - 1)
   <= 4 * eps + 2 * eps ^ 2)%R /\
  (Rabs (float_value (month_sin 12%Z)) <= eps + 1 / 250)%R /\
  (Rabs (float_value (month_sin 1%Z) - 1 / 2) <= eps + 1 / 250)%R /\
  (1 / 2 - (2 * eps + 1 / 125)
   <= Rabs (float_value (month_sin 12%Z) - float_value (month_sin 1%Z))
   <= 1 / 2 + (2 * eps + 1 / 125))%R /\
  Rabs (IZR 12 - IZR 1) = 11%R.
Proof.
  intros Hm Hsm Hcm Hs12 Hs1 month_sin month_cos.
  subst month_sin month_cos. unfold month_sin_of, month_cos_of.
  cbn [np_sin np_cos numpy_float64]. fold (angle m) (angle 12) (angle 1).
  pose proof (accurate_at_month libm_sin sin eps m sin_lipschitz Hm Hsm)
    as Hsin.
  pose proof (accurate_at_month libm_cos cos eps m cos_lipschitz Hm Hcm)
    as Hcos.
  pose proof (accurate_at_month libm_sin sin eps 12 sin_lipschitz
                ltac:(lia) Hs12) as Hdec.
  pose proof (accurate_at_month libm_sin sin eps 1 sin_lipschitz
                ltac:(lia) Hs1) as Hjan.
  replace (2 * PI * 12 / 12)%R with (2 * PI)%R in Hdec by field.
  replace (2 * PI * 1 / 12)%R with (PI / 6)%R in Hjan by field.
  rewrite sin_2PI, Rminus_0_r in Hdec. rewrite sin_PI6 in Hjan.
  split; [exact (month_angle_value m Hm) |].
  split; [split; [apply Hsm | apply Hcm] |].
  split; [exact Hsin |]. split; [exact Hcos |].
  split.
  { destruct Hsm as [_ Hsm], Hcm as [_ Hcm].
    eapply near_unit_circle; [exact Hsm | exact Hcm |].
    pose proof (sin2_cos2 (float_value (angle m))) as H.
    unfold Rsqr in H. lra. }
  split; [exact Hdec |]. split; [exact Hjan |].
  split.
  - apply Rabs_le_between in Hdec, Hjan.
    unfold Rabs at 1 2.
    destruct (Rcase_abs
                (float_value (libm_sin (angle 12))
                 - float_value (libm_sin (angle 1)))); split; lra.
  - replace (12 - 1)%R with 11%R by lra. apply Rabs_pos_eq. lra.
Qed.

End CyclicalEncoding.

(** The table is accurate to 1/100 where the witness needs it. *)
Lemma table_sin_december :
  accurate_at table_sin sin (1 / 100)
    (month_angle (numpy := numpy_float64 table_sin table_cos) 12).
Proof.
  split; [vm_compute; reflexivity |].
  destruct (month_angle_value table_sin table_cos 12 ltac:(lia)) as [_ Hv].
  cbv zeta in Hv.
  replace (table_sin
             (month_angle (numpy := numpy_float64 table_sin table_cos) 12))
    with (-0x1.1a62633145c07p-52)%float by (vm_compute; reflexivity).
  set (a := float_value
              (month_angle (numpy := numpy_float64 table_sin table_cos) 12))
    in *.
  pose proof (sin_lipschitz a (2 * PI * 12 / 12)) as Hl.
  replace (2 * PI * 12 / 12)%R with (2 * PI)%R in Hl, Hv by field.
  rewrite sin_2PI in Hl.
  assert (Hs : (Rabs (sin a - 0) <= 1 / 250)%R) by lra.
  apply Rabs_le_between in Hs. clearbody a.
  float_value_of (-0x1.1a62633145c07p-52)%float.
  apply Rabs_le. lra.
Qed.

Lemma table_cos_december :
  accurate_at table_cos cos (1 / 100)
    (month_angle (numpy := numpy_float64 table_sin table_cos) 12).
Proof.
  split; [vm_compute; reflexivity |].
  destruct (month_angle_value table_sin table_cos 12 ltac:(lia)) as [_ Hv].
  cbv zeta in Hv.
  change (Rabs
            (float_value 1
             - cos (float_value
                      (month_angle
                         (numpy := numpy_float64 table_sin table_cos) 12)))
          <= 1 / 100)%R.
  set (a := float_value
              (month_angle (numpy := numpy_float64 table_sin table_cos) 12))
    in *.
  pose proof (cos_lipschitz a (2 * PI * 12 / 12)) as Hl.
  replace (2 * PI * 12 / 12)%R with (2 * PI)%R in Hl, Hv by field.
  rewrite cos_2PI in Hl.
  assert (Hs : (Rabs (cos a - 1) <= 1 / 250)%R) by lra.
  apply Rabs_le_between in Hs. clearbody a.
  float_value_of 1%float.
  apply Rabs_le. lra.
Qed.

Lemma table_sin_january :
  accurate_at table_sin sin (1 / 100)
    (month_angle (numpy := numpy_float64 table_sin table_cos) 1).
Proof.
  split; [vm_compute; reflexivity |].
  destruct (month_angle_value table_sin table_cos 1 ltac:(lia)) as [_ Hv].
  cbv zeta in Hv.
  replace (table_sin
             (month_angle (numpy := numpy_float64 table_sin table_cos) 1))
    with 0x1.fffffffffffffp-2%float by (vm_compute; reflexivity).
  set (a := float_value
              (month_angle (numpy := numpy_float64 table_sin table_cos) 1))
    in *.
  pose proof (sin_lipschitz a (2 * PI * 1 / 12)) as Hl.
  replace (2 * PI * 1 / 12)%R with (PI / 6)%R in Hl, Hv by field.
  rewrite sin_PI6 in Hl.
  assert (Hs : (Rabs (sin a - 1 / 2) <= 1 / 250)%R) by lra.
  apply Rabs_le_between in Hs. clearbody a.
  float_value_of 0x1.fffffffffffffp-2%float.
  apply Rabs_le. lra.
Qed.

Lemma cyclical_encoding_witness :
  (Rabs
     (float_value
        (month_sin_of (numpy := numpy_float64 table_sin table_cos) 12) ^ 2
      + float_value
          (month_cos_of (numpy := numpy_float64 table_sin table_cos) 12) ^ 2
      - 1)
   <= 4 * (1 / 100) + 2 * (1 / 100) ^ 2)%R /\
  (Rabs
     (float_value
        (month_sin_of (numpy := numpy_float64 table_sin table_cos) 12)
      - float_value
          (month_sin_of (numpy := numpy_float64 table_sin table_cos) 1))
   <= 1 / 2 + (2 * (1 / 100) + 1 / 125))%R.
Proof.
  destruct (cyclical_encoding table_sin table_cos (1 / 100) 12)
    as (_ & _ & _ & _ & Hcircle & _ & _ & Hwrap & _).
  - lia.
  - exact table_sin_december.
  - exact table_cos_december.
  - exact table_sin_december.
  - exact table_sin_january.
  - split; [exact Hcircle | apply Hwrap].
Defined.

(** ** Runs of the page *)

Lemma bind_emit {B : Type} (ev : event) (k : unit -> ui B) (tr : list event) :
  bind (emit ev) k tr = k tt (tr ++ [ev]).
Proof. reflexivity. Qed.

Lemma bind_lift {A B : Type} (r : result A) (k : A -> ui B) (tr : list event) :
  bind (lift r) k tr =
    match r with
    | Ok a => k a tr
    | Raise e => (tr, Raise e)
    end.
Proof. unfold bind, lift. destruct r; reflexivity. Qed.

Lemma bind_for_each_emit {A B : Type} (f : A -> event) (l : list A)
    (k : unit -> ui B) (tr : list event) :
  bind (for_each l (fun x => emit (f x))) k tr = k tt (tr ++ List.map f l).
Proof. unfold bind. rewrite for_each_emit. reflexivity. Qed.

Ltac ui_step := rewrite bind_emit; cbv beta zeta.

(** When both conversions to [int] succeed the whole result is rendered. *)
Lemma show_prediction_complete (i : Inputs) (p : float) (v d : Z)
    (tr : list event) :
  Float64.to_int p = Ok v ->
  Float64.to_int (p - Float64.of_int (units_sold_lag1 i))%float = Ok d ->
  last_month_price i <> 0 ->
  show_prediction i p tr =
    (tr ++ [st_columns 3;
            st_metric_predicted_units v d;
            st_metric_price_change (price_change i)
              (Float64.of_int (price_change i)
                 / Float64.of_int (last_month_price i) * 100)%float;
            st_metric_revenue (p * Float64.of_int (current_price i))%float;
            st_markdown_rule;
            st_subheader_key_insights]
        ++ List.map st_info_insight (insights i p)
        ++ [st_input_summary i],
     Ok tt).
Proof.
  intros Hv Hd Hl.
  assert (Hr : Float64.int_truediv (price_change i) (last_month_price i)
               = Ok (Float64.of_int (price_change i)
                       / Float64.of_int (last_month_price i))%float).
  { unfold Float64.int_truediv.
    destruct (last_month_price i =? 0) eqn:E; [|reflexivity].
    apply Z.eqb_eq in E. contradiction. }
  unfold show_prediction.
  ui_step. rewrite bind_lift, Hv. cbv beta iota.
  rewrite bind_lift, Hd. cbv beta iota.
  ui_step. rewrite bind_lift, Hr. cbv beta iota.
  do 4 ui_step.
  rewrite bind_for_each_emit. unfold emit.
  repeat rewrite <- app_assoc. reflexivity.
Qed.

Section PageProperties.

Variables libm_sin libm_cos : float -> float.

Let features (i : Inputs) : list (list float) :=
  input_features (numpy := numpy_float64 libm_sin libm_cos) i.

Lemma main_content_never_raises (predict_button : bool)
    (model : option regressor) (i : Inputs) (tr : list event) :
  snd (main_content libm_sin libm_cos predict_button model i tr) = Ok tt.
Proof.
  unfold main_content, try_except.
  destruct predict_button, model as [model|]; try reflexivity.
  destruct (try_body libm_sin libm_cos model i tr) as [tr' [[]|e]];
    reflexivity.
Qed.


Lemma main_content_model_raises (model : regressor) (i : Inputs) (e : exn)
    (tr : list event) :
  model (features i) = Raise e ->
  main_content libm_sin libm_cos true (Some model) i tr =
    (tr ++ [model_predict_called (features i); st_error_making_prediction e],
     Ok tt).
Proof.
  intros He.
  unfold main_content, try_except, try_body, bind, lift, emit.
  fold (features i). rewrite He, <- app_assoc. reflexivity.
Qed.

Lemma main_content_complete (model : regressor) (i : Inputs) (p : float)
    (v d : Z) (tr : list event) :
  model (features i) = Ok p ->
  Float64.to_int p = Ok v ->
  Float64.to_int (p - Float64.of_int (units_sold_lag1 i))%float = Ok d ->
  last_month_price i <> 0 ->
  main_content libm_sin libm_cos true (Some model) i tr =
    (tr ++ [model_predict_called (features i);
            st_columns 3;
            st_metric_predicted_units v d;
            st_metric_price_change (price_change i)
              (Float64.of_int (price_change i)
                 / Float64.of_int (last_month_price i) * 100)%float;
            st_metric_revenue (p * Float64.of_int (current_price i))%float;
            st_markdown_rule;
            st_subheader_key_insights]
        ++ List.map st_info_insight (insights i p)
        ++ [st_input_summary i],
     Ok tt).
Proof.
  intros Hp Hv Hd Hl.
  unfold main_content, try_except, try_body, bind, lift, emit.
  fold (features i). rewrite Hp.
  rewrite (show_prediction_complete i p v d _ Hv Hd Hl).
  repeat rewrite <- app_assoc. reflexivity.
Qed.

(** C2: with no units sold last month the run still ends normally.  No run
    of the main content area lets an exception escape; and when the model
    answers with a finite number the whole result is on the page, with
    every insight and no error message: the percentage change is an
    infinity (or nan for a zero prediction), never a raised division. *)
Theorem zero_units_no_crash (model : regressor) (i : Inputs) (p : float)
    (v : Z) (tr : list event) :
  units_sold_lag1 i = 0 ->
  last_month_price i <> 0 ->
  model (features i) = Ok p ->
  Float64.to_int p = Ok v ->
  (forall predict_button model' tr',
      snd (main_content libm_sin libm_cos predict_button model' i tr')
      = Ok tt) /\
  main_content libm_sin libm_cos true (Some model) i tr =
    (tr ++ [model_predict_called (features i);
            st_columns 3;
            st_metric_predicted_units v v;
            st_metric_price_change (price_change i)
              (Float64.of_int (price_change i)
                 / Float64.of_int (last_month_price i) * 100)%float;
            st_metric_revenue (p * Float64.of_int (current_price i))%float;
            st_markdown_rule;
            st_subheader_key_insights]
        ++ List.map st_info_insight (insights i p)
        ++ [st_input_summary i],
     Ok tt) /\
  insights i p =
    price_insight (price_change i)
      :: festive_insights (is_festive i)
      ++ harvest_insights (is_harvest i)
      ++ magnitude_insights (change_pct p 0) /\
  change_pct p 0 =
    match Prim2SF p with
    | S754_finite s _ _ | S754_infinity s =>
        if s then neg_infinity else infinity
    | S754_zero _ | S754_nan => nan
    end.
Proof.
  intros Hu Hl Hp Hv.
  split; [|split; [|split]].
  - intros. apply main_content_never_raises.
  - apply main_content_complete; auto.
    rewrite Hu, sub_of_int_zero. exact Hv.
  - rewrite insights_shape, Hu. reflexivity.
  - apply change_pct_zero_divisor.
Qed.

End PageProperties.

Lemma zero_units_no_crash_witness :
  units_sold_lag1 scenario_no_sales = 0 /\
  last_month_price scenario_no_sales <> 0 /\
  Float64.to_int 950 = Ok 950 /\
  main_content stub_libm stub_libm true (Some (stub_model (Ok 950%float)))
    scenario_no_sales []
  = ([model_predict_called [[98; 0; 50; 0; 0; 0; 0]%float];
      st_columns 3;
      st_metric_predicted_units 950 950;
      st_metric_price_change 50 0x1.b9611a7b9611ap+1;
      st_metric_revenue 1425000;
      st_markdown_rule;
      st_subheader_key_insights;
      st_info_insight (Price_increased 50);
      st_info_insight (Stock_up infinity);
      st_input_summary scenario_no_sales],
     Ok tt).
Proof.
  assert (Hu : units_sold_lag1 scenario_no_sales = 0) by reflexivity.
  assert (Hl : last_month_price scenario_no_sales <> 0) by (cbn; lia).
  assert (Hv : Float64.to_int 950 = Ok 950) by (vm_compute; reflexivity).
  split; [exact Hu|]. split; [exact Hl|]. split; [exact Hv|].
  destruct (zero_units_no_crash stub_libm stub_libm
              (stub_model (Ok 950%float)) scenario_no_sales 950%float 950 []
              Hu Hl eq_refl Hv) as (_ & Hrun & _ & _).
  rewrite Hrun. vm_compute. reflexivity.
Defined.

(** ** Displayed metrics *)

Lemma show_prediction_fractional :
  fst (show_prediction scenario 1000.5 []) =
    [st_columns 3;
     st_metric_predicted_units 1000 (-7);
     st_metric_price_change 50 0x1.b9611a7b9611ap+1;
     st_metric_revenue 1500750;
     st_markdown_rule;
     st_subheader_key_insights;
     st_info_insight (Price_increased 50);
     st_input_summary scenario].
Proof. vm_compute. reflexivity. Qed.

(** C5 as stated fails: for a prediction of 1000.5 after 1008 units the page
    shows 1000 predicted units and a delta of -7 (the truncation of -7.5).
    That is neither 1000 - 1008 = -8, the difference from the displayed
    units, nor -7.5, the difference from the untruncated prediction.  (The
    revenue shown is 1500750, the untruncated prediction times 1500.) *)
Lemma displayed_delta_counterexample :
  ~ (forall (i : Inputs) (p : float) (v d : Z),
       In (st_metric_predicted_units v d) (fst (show_prediction i p [])) ->
       d = v - units_sold_lag1 i \/
       Float64.of_int d = (p - Float64.of_int (units_sold_lag1 i))%float).
Proof.
  intros H.
  destruct (H scenario 1000.5%float 1000 (-7)) as [Hd | Hd].
  - rewrite show_prediction_fractional. cbn. tauto.
  - cbn in Hd. discriminate.
  - assert (Hne : PrimFloat.eqb (Float64.of_int (-7))
                    (1000.5 - Float64.of_int (units_sold_lag1 scenario))
                  = false) by (vm_compute; reflexivity).
    rewrite Hd in Hne. vm_compute in Hne. discriminate.
Qed.

Lemma revenue_of_1200_all_prices :
  all_from 100 (Z.to_nat 9901) revenue_of_1200_exact = true.
Proof. vm_compute. reflexivity. Qed.

(** C5, amended: the page shows the prediction truncated toward zero, the
    truncation of (prediction - last month's units) computed on the
    untruncated prediction, and the revenue as the untruncated prediction
    times the current price.  For a prediction of 1200 after 1008 units
    these are 1200, 192 and 1200 times the price. *)
Theorem displayed_metrics (i : Inputs) (p : float) (v d : Z)
    (tr : list event) :
  Float64.to_int p = Ok v ->
  Float64.to_int (p - Float64.of_int (units_sold_lag1 i))%float = Ok d ->
  last_month_price i <> 0 ->
  show_prediction i p tr =
    (tr ++ [st_columns 3;
            st_metric_predicted_units v d;
            st_metric_price_change (price_change i)
              (Float64.of_int (price_change i)
                 / Float64.of_int (last_month_price i) * 100)%float;
            st_metric_revenue (p * Float64.of_int (current_price i))%float;
            st_markdown_rule;
            st_subheader_key_insights]
        ++ List.map st_info_insight (insights i p)
        ++ [st_input_summary i],
     Ok tt) /\
  Float64.to_int 1200 = Ok 1200 /\
  Float64.to_int (1200 - Float64.of_int 1008)%float = Ok 192 /\
  (forall c, 100 <= c <= 10000 ->
     Float64.to_int (1200 * Float64.of_int c)%float = Ok (1200 * c)).
Proof.
  intros Hv Hd Hl.
  split; [now apply show_prediction_complete|].
  split; [vm_compute; reflexivity|].
  split; [vm_compute; reflexivity|].
  intros c Hc.
  assert (H : revenue_of_1200_exact c = true)
    by (apply (all_from_spec _ _ _ _ revenue_of_1200_all_prices); lia).
  unfold revenue_of_1200_exact in H.
  destruct (Float64.to_int (1200 * Float64.of_int c)%float) as [z|];
    [|discriminate].
  apply Z.eqb_eq in H. now subst.
Qed.

Lemma displayed_metrics_witness :
  Float64.to_int 1200 = Ok 1200 /\
  Float64.to_int (1200 - Float64.of_int (units_sold_lag1 scenario))%float
    = Ok 192 /\
  last_month_price scenario <> 0 /\
  show_prediction scenario 1200 [] =
    ([st_columns 3;
      st_metric_predicted_units 1200 192;
      st_metric_price_change 50 0x1.b9611a7b9611ap+1;
      st_metric_revenue 1800000;
      st_markdown_rule;
      st_subheader_key_insights;
      st_info_insight (Price_increased 50);
      st_info_insight (Stock_up 0x1.30c30c30c30c3p+4);
      st_input_summary scenario],
     Ok tt).
Proof.
  assert (Hv : Float64.to_int 1200 = Ok 1200) by (vm_compute; reflexivity).
  assert (Hd : Float64.to_int
                 (1200 - Float64.of_int (units_sold_lag1 scenario))%float
               = Ok 192) by (vm_compute; reflexivity).
  assert (Hl : last_month_price scenario <> 0) by (cbn; lia).
  split; [exact Hv|]. split; [exact Hd|]. split; [exact Hl|].
  destruct (displayed_metrics scenario 1200%float 1200 192 [] Hv Hd Hl)
    as [Hrun _].
  rewrite Hrun. vm_compute. reflexivity.
Defined.

(** ** Sessions after a failed load *)

Section FailurePaths.

Variables libm_sin libm_cos : float -> float.

Let features (i : Inputs) : list (list float) :=
  input_features (numpy := numpy_float64 libm_sin libm_cos) i.




End FailurePaths.

(** * Further properties

    Properties of the same script beyond the ones above: the month lookup,
    the time index, the remaining insight rules, sessions with a loaded
    model, and the outcomes of a run. *)

(** ** The month lookup *)

Lemma index_nth (x : string) (l : list string) :
  forall n, index x l = Ok n ->
            0 <= n < Z.of_nat (List.length l) /\
            nth_error l (Z.to_nat n) = Some x.
Proof.
  induction l as [|y l IH]; intros n H; cbn [index] in H; [discriminate|].
  destruct (String.eqb_spec y x) as [-> | Hne].
  - injection H as <-. cbn [List.length]. split; [lia | reflexivity].
  - destruct (index x l) as [k|e]; [|discriminate].
    injection H as <-. destruct (IH k eq_refl) as [Hk Hn].
    cbn [List.length]. split; [lia|].
    replace (Z.to_nat (k + 1)) with (S (Z.to_nat k)) by lia. exact Hn.
Qed.

Lemma month_num_of_nth (prediction_month : string) (m : Z) :
  month_num_of prediction_month = Ok m <->
  1 <= m <= 12 /\
  nth_error month_names (Z.to_nat (m - 1)) = Some prediction_month.
Proof.
  split.
  - unfold month_num_of. intros H.
    destruct (index prediction_month month_names) as [n|e] eqn:E;
      [|discriminate].
    injection H as <-. apply index_nth in E as [Hn Hx].
    change (Z.of_nat (List.length month_names)) with 12 in Hn.
    replace (n + 1 - 1) with n by lia. split; [lia | exact Hx].
  - intros [Hm Hn].
    assert (Hc : m = 1 \/ m = 2 \/ m = 3 \/ m = 4 \/ m = 5 \/ m = 6 \/
                 m = 7 \/ m = 8 \/ m = 9 \/ m = 10 \/ m = 11 \/ m = 12) by lia.
    repeat destruct Hc as [-> | Hc]; try subst m;
      cbn in Hn; injection Hn as <-; reflexivity.
Qed.

Lemma index_absent (x : string) (l : list string) :
  (exists e, index x l = Raise e) <-> ~ In x l.
Proof.
  induction l as [|y l IH]; cbn [index In].
  - split; [tauto | eauto].
  - destruct (String.eqb_spec y x) as [-> | Hne].
    + split; [intros [e He]; discriminate | tauto].
    + destruct (index x l) as [n|e] eqn:E.
      * split; [intros [e He]; discriminate|].
        intros Hn. exfalso. apply Hn. right.
        destruct (in_dec string_dec x l) as [Hi|Hi]; [exact Hi|].
        apply IH in Hi. destruct Hi as [e He]. discriminate.
      * split; [|eauto]. intros _ [H|H]; [congruence|].
        revert H. apply IH. eauto.
Qed.

(** X1: the month number is the 1-based position of the chosen name in the
    list of months: a name is mapped to [m] exactly when it is the [m]-th
    of the twelve, and the lookup raises exactly for a string that is not a
    month name. *)
Theorem month_selectbox_round_trip (prediction_month : string) (m : Z) :
  (month_num_of prediction_month = Ok m <->
   1 <= m <= 12 /\
   nth_error month_names (Z.to_nat (m - 1)) = Some prediction_month) /\
  ((exists e, month_num_of prediction_month = Raise e) <->
   ~ In prediction_month month_names).
Proof.
  split; [apply month_num_of_nth|].
  rewrite <- index_absent. unfold month_num_of.
  destruct (index prediction_month month_names) as [n|e];
    split; intros [e' H]; try discriminate; eauto.
Qed.

(** ** The time index and the season and price advisories *)

(** X2: the time index determines the month it was computed from: for a
    month in 1..12 the year is 2017 + (t - 1) div 12 and the month is
    (t - 1) mod 12 + 1, so two different (year, month) pairs never share an
    index; the index is at least 1 exactly from 2017 on. *)
Theorem months_since_start_decodes (year month : Z) :
  1 <= month <= 12 ->
  let t := months_since_start_of year month in
  2017 + (t - 1) / 12 = year /\
  (t - 1) mod 12 + 1 = month /\
  (2017 <= year <-> 1 <= t) /\
  (forall year' month', 1 <= month' <= 12 ->
     months_since_start_of year' month' = t -> year' = year /\ month' = month).
Proof.
  intros Hm t. subst t. unfold months_since_start_of.
  assert (Hd : ((year - 2017) * 12 + month - 1) / 12 = year - 2017).
  { replace ((year - 2017) * 12 + month - 1)
      with ((month - 1) + (year - 2017) * 12) by lia.
    rewrite Z.div_add by lia. rewrite Z.div_small by lia. lia. }
  assert (Hr : ((year - 2017) * 12 + month - 1) mod 12 = month - 1).
  { replace ((year - 2017) * 12 + month - 1)
      with ((month - 1) + (year - 2017) * 12) by lia.
    rewrite Z.mod_add by lia. apply Z.mod_small. lia. }
  repeat split; try lia.
Qed.

Lemma months_since_start_decodes_witness :
  2017 + (months_since_start_of 2025 2 - 1) / 12 = 2025 /\
  (months_since_start_of 2025 2 - 1) mod 12 + 1 = 2.
Proof.
  destruct (months_since_start_decodes 2025 2) as (Hy & Hm & _); [lia|].
  split; [exact Hy | exact Hm].
Defined.

(** X3: the festive advisory is shown exactly for the choice "Yes", that
    is, exactly when the festive feature given to the model is 1; likewise
    the harvest advisory. *)
Theorem season_advisories (i : Inputs) (p : float) :
  (In Festive_season (insights i p) <-> is_festive i = "Yes"%string) /\
  (In Harvest_season (insights i p) <-> is_harvest i = "Yes"%string) /\
  (In Festive_season (insights i p) <-> is_festive_num i = 1) /\
  (In Harvest_season (insights i p) <-> is_harvest_num i = 1).
Proof.
  rewrite insights_shape.
  unfold festive_insights, harvest_insights, is_festive_num, is_harvest_num,
    price_insight.
  destruct (String.eqb_spec (is_festive i) "Yes") as [Hf|Hf],
    (String.eqb_spec (is_harvest i) "Yes") as [Hh|Hh],
    (price_change i >? 0), (price_change i <? 0),
    (magnitude_insights_cases (change_pct p (units_sold_lag1 i)))
      as [-> | [-> | ->]];
    cbn [In app]; repeat split; intros; auto;
    repeat match goal with
           | H : _ \/ _ |- _ => destruct H
           | H : False |- _ => destruct H
           end; try discriminate; try contradiction; try lia.
Qed.

(** X4: a price advisory always states a positive amount, the absolute
    difference of the two prices. *)
Theorem price_advisory_amount (i : Inputs) (p : float) (amount : Z) :
  In (Price_increased amount) (insights i p) \/
  In (Price_decreased amount) (insights i p) ->
  amount = Z.abs (current_price i - last_month_price i) /\ 0 < amount.
Proof.
  rewrite insights_shape. unfold price_insight, price_change.
  destruct (festive_insights_cases (is_festive i)) as [-> | ->],
    (harvest_insights_cases (is_harvest i)) as [-> | ->],
    (magnitude_insights_cases (change_pct p (units_sold_lag1 i)))
      as [-> | [-> | ->]];
    destruct (current_price i - last_month_price i >? 0) eqn:Hgt;
    try destruct (current_price i - last_month_price i <? 0) eqn:Hlt;
    cbn [In app]; intros H;
    repeat match goal with
           | H : _ \/ _ |- _ => destruct H
           | H : False |- _ => destruct H
           | H : _ = _ |- _ => first [discriminate H | injection H as <-]
           end; lia.
Qed.

Lemma price_advisory_amount_witness :
  50 = Z.abs (current_price scenario - last_month_price scenario) /\ 0 < 50.
Proof.
  apply (price_advisory_amount scenario 1200%float 50).
  left. rewrite scenario_stock_up. left. reflexivity.
Defined.

(** ** Percentages in magnitude advisories *)

Lemma Prim2SF_float_zero : Prim2SF 0 = S754_zero false.
Proof. vm_compute. reflexivity. Qed.

Lemma compare_cont_flip (m n : positive) :
  CompOpp (PosDef.Pos.compare_cont Eq m n) = Lt ->
  PosDef.Pos.compare_cont Eq n m = Lt.
Proof.
  intros H. change (PosDef.Pos.compare_cont Eq n m) with (Pos.compare n m).
  change (PosDef.Pos.compare_cont Eq m n) with (Pos.compare m n) in H.
  rewrite Pos.compare_antisym. exact H.
Qed.

(** The absolute value of a float beyond either threshold is above 10. *)
Lemma abs_above_ten (c : float) :
  (10 <? c)%float = true \/ (c <? -10)%float = true ->
  (10 <? PrimFloat.abs c)%float = true.
Proof.
  rewrite !FloatAxioms.ltb_spec, FloatAxioms.abs_spec, Prim2SF_ten,
    Prim2SF_minus_ten.
  unfold SFltb, SFcompare, SFabs.
  destruct (Prim2SF c) as [s|s| |s m e]; try destruct s;
    intros [H | H]; try discriminate; try reflexivity; try exact H.
  rewrite (Z.compare_antisym e (-49)).
  destruct (e ?= -49) eqn:E; cbn [CompOpp]; try discriminate; try reflexivity.
  rewrite compare_cont_flip; [reflexivity|].
  destruct (CompOpp (PosDef.Pos.compare_cont Eq m 5629499534213120));
    try discriminate; reflexivity.
Qed.

(** X5: the percentage printed in a magnitude advisory is the absolute
    value of the percentage change and is always above 10 (possibly
    infinite), never negative and never nan. *)
Theorem magnitude_percent_above_ten (i : Inputs) (p : float) (x : float) :
  In (Stock_up x) (insights i p) \/ In (Demand_drop x) (insights i p) ->
  x = PrimFloat.abs (change_pct p (units_sold_lag1 i)) /\
  (10 <? x)%float = true.
Proof.
  rewrite insights_shape. unfold price_insight, magnitude_insights.
  set (c := change_pct p (units_sold_lag1 i)).
  pose proof (abs_above_ten c) as Habs.
  destruct (festive_insights_cases (is_festive i)) as [-> | ->],
    (harvest_insights_cases (is_harvest i)) as [-> | ->];
    destruct (price_change i >? 0), (price_change i <? 0);
    destruct (10 <? c)%float eqn:Hup;
    try destruct (c <? -10)%float eqn:Hdown;
    cbn [In app]; intros H;
    repeat match goal with
           | H : _ \/ _ |- _ => destruct H
           | H : False |- _ => destruct H
           | H : _ = _ :> insight |- _ =>
               first [discriminate H | injection H as <-]
           end; split; auto.
Qed.

Lemma magnitude_percent_above_ten_witness :
  0x1.30c30c30c30c3p+4%float
    = PrimFloat.abs (change_pct 1200 (units_sold_lag1 scenario)) /\
  (10 <? 0x1.30c30c30c30c3p+4)%float = true.
Proof.
  apply (magnitude_percent_above_ten scenario 1200%float).
  left. rewrite scenario_stock_up. right. left. reflexivity.
Defined.

(** ** Edge cases of the magnitude rule and invariance in the price level *)


(** X6: with no units sold last month the magnitude rule is decided by the
    sign of the prediction alone: a positive prediction gives a stock-up
    advisory and a negative one a reduce advisory, both with an infinite
    percentage, and a prediction of zero (or nan) gives neither. *)
Theorem zero_units_advisory (i : Inputs) (p : float) :
  units_sold_lag1 i = 0 ->
  List.filter is_magnitude (insights i p) =
    if (0 <? p)%float then [Stock_up infinity]
    else if (p <? 0)%float then [Demand_drop infinity]
    else [].
Proof.
  intros Hu. rewrite filter_magnitude, Hu, change_pct_zero_divisor.
  rewrite !FloatAxioms.ltb_spec, Prim2SF_float_zero.
  unfold SFltb, SFcompare.
  destruct (Prim2SF p) as [s|s| |s m e]; try destruct s;
    vm_compute; reflexivity.
Qed.

Lemma zero_units_advisory_witness :
  List.filter is_magnitude (insights scenario_no_sales 950)
  = [Stock_up infinity].
Proof.
  rewrite (zero_units_advisory scenario_no_sales 950%float eq_refl).
  reflexivity.
Defined.

Lemma sub_self_zero_or_nan (q : float) :
  Prim2SF (q - q) = S754_zero false \/ Prim2SF (q - q) = S754_nan.
Proof.
  rewrite FloatAxioms.sub_spec. unfold SF64sub, SFsub.
  destruct (Prim2SF q) as [s|s| |s m e]; try destruct s; auto.
  - left. rewrite Z.min_id. unfold shl_align.
    change IntDef.Z.sub with Z.sub. rewrite Z.sub_diag. reflexivity.
  - left. rewrite Z.min_id. unfold shl_align.
    change IntDef.Z.sub with Z.sub. rewrite Z.sub_diag. reflexivity.
Qed.

Lemma change_pct_of_equal (q : float) :
  let c := ((q - q) / q * 100)%float in
  (10 <? c)%float = false /\ (c <? -10)%float = false.
Proof.
  intros c. subst c.
  rewrite !FloatAxioms.ltb_spec, FloatAxioms.mul_spec, FloatAxioms.div_spec,
    Prim2SF_ten, Prim2SF_minus_ten, Prim2SF_hundred.
  destruct (sub_self_zero_or_nan q) as [-> | ->];
    destruct (Prim2SF q) as [s|s| |s m e]; try destruct s;
    split; reflexivity.
Qed.

(** X7: when the model predicts exactly last month's units, no magnitude
    advisory is shown; this includes zero units, where the percentage
    change is nan. *)
Theorem prediction_equal_to_last_month (i : Inputs) :
  List.filter is_magnitude
    (insights i (Float64.of_int (units_sold_lag1 i))) = [].
Proof.
  rewrite filter_magnitude. unfold magnitude_insights, change_pct.
  destruct (change_pct_of_equal (Float64.of_int (units_sold_lag1 i)))
    as [-> ->].
  reflexivity.
Qed.

(** X8: the model sees the prices only through their difference: two
    inputs with the same month, year, units, season choices and price
    change give the same feature row, whatever the price level, and hence
    the same model call and the same advisories. *)
Theorem price_level_invariance {F : Type} {numpy : Numpy F}
    (i1 i2 : Inputs) :
  month_num i1 = month_num i2 ->
  current_year i1 = current_year i2 ->
  units_sold_lag1 i1 = units_sold_lag1 i2 ->
  is_festive i1 = is_festive i2 ->
  is_harvest i1 = is_harvest i2 ->
  current_price i1 - last_month_price i1
    = current_price i2 - last_month_price i2 ->
  input_features i1 = input_features i2 /\
  (forall p, insights i1 p = insights i2 p).
Proof.
  intros Hm Hy Hu Hf Hh Hp.
  split.
  - unfold input_features, months_since_start, price_change, month_sin,
      month_cos, is_festive_num, is_harvest_num.
    rewrite Hm, Hy, Hu, Hf, Hh, Hp. reflexivity.
  - intros p. rewrite !insights_shape. unfold price_change.
    rewrite Hu, Hf, Hh, Hp. reflexivity.
Qed.

Lemma price_level_invariance_witness :
  input_features (numpy := numpy_float64 stub_libm stub_libm) scenario
  = input_features (numpy := numpy_float64 stub_libm stub_libm)
      {| month_num := 2; current_year := 2025;
         current_price := 9000; last_month_price := 8950;
         units_sold_lag1 := 1008;
         is_festive := "No"; is_harvest := "No" |}.
Proof.
  apply price_level_invariance; reflexivity.
Defined.

(** ** Sessions with a loaded model *)



Lemma appends_ret {A : Type} (a : A) : appends (ret a).
Proof. intros tr. unfold ret. cbn. now rewrite app_nil_r. Qed.

Lemma appends_emit (ev : event) : appends (emit ev).
Proof. intros tr. reflexivity. Qed.

Lemma appends_lift {A : Type} (r : result A) : appends (lift r).
Proof. intros tr. unfold lift. cbn. now rewrite app_nil_r. Qed.

Lemma appends_bind {A B : Type} (m : ui A) (k : A -> ui B) :
  appends m -> (forall a, appends (k a)) -> appends (bind m k).
Proof.
  intros Hm Hk tr. unfold bind. rewrite (Hm tr).
  destruct (m []) as [evs [a|e]]; cbn [fst snd].
  - rewrite (Hk a (tr ++ evs)), (Hk a evs). cbn [fst snd].
    now rewrite app_assoc.
  - reflexivity.
Qed.

Lemma appends_try_except {A : Type} (body : ui A) (handler : exn -> ui A) :
  appends body -> (forall e, appends (handler e)) ->
  appends (try_except body handler).
Proof.
  intros Hb Hh tr. unfold try_except. rewrite (Hb tr).
  destruct (body []) as [evs [a|e]]; cbn [fst snd].
  - reflexivity.
  - rewrite (Hh e (tr ++ evs)), (Hh e evs). cbn [fst snd].
    now rewrite app_assoc.
Qed.

Lemma appends_for_each {A : Type} (l : list A) (f : A -> ui unit) :
  (forall x, appends (f x)) -> appends (for_each l f).
Proof.
  intros Hf. induction l as [|x l IH]; cbn [for_each].
  - apply appends_ret.
  - apply appends_bind; auto.
Qed.

Lemma appends_show_prediction (i : Inputs) (p : float) :
  appends (show_prediction i p).
Proof.
  unfold show_prediction.
  repeat first
    [ apply appends_bind; [|intros ?]
    | apply appends_emit
    | apply appends_lift
    | apply appends_for_each; intros ? ].
Qed.

Lemma appends_main_content (libm_sin libm_cos : float -> float)
    (predict_button : bool) (model : option regressor) (i : Inputs) :
  appends (main_content libm_sin libm_cos predict_button model i).
Proof.
  unfold main_content.
  destruct predict_button, model as [model|];
    try (apply appends_bind; [|intros ?]; apply appends_emit).
  apply appends_try_except; [|intros e; apply appends_emit].
  unfold try_body.
  apply appends_bind; [apply appends_emit|intros _].
  apply appends_bind; [apply appends_lift|intros p].
  apply appends_show_prediction.
Qed.

Lemma show_prediction_cases (i : Inputs) (p : float) (tr : list event) :
  show_prediction i p tr =
    match Float64.to_int p with
    | Raise e => (tr ++ [st_columns 3], Raise e)
    | Ok v =>
        match Float64.to_int
                (p - Float64.of_int (units_sold_lag1 i))%float with
        | Raise e => (tr ++ [st_columns 3], Raise e)
        | Ok d =>
            match Float64.int_truediv (price_change i) (last_month_price i)
            with
            | Raise e =>
                (tr ++ [st_columns 3; st_metric_predicted_units v d], Raise e)
            | Ok r =>
                (tr ++ [st_columns 3;
                        st_metric_predicted_units v d;
                        st_metric_price_change (price_change i)
                          (r * 100)%float;
                        st_metric_revenue
                          (p * Float64.of_int (current_price i))%float;
                        st_markdown_rule;
                        st_subheader_key_insights]
                    ++ List.map st_info_insight (insights i p)
                    ++ [st_input_summary i],
                 Ok tt)
            end
        end
    end.
Proof.
  unfold show_prediction. rewrite bind_emit; cbv beta zeta.
  rewrite bind_lift. destruct (Float64.to_int p) as [v|e]; [|reflexivity].
  rewrite bind_lift.
  destruct (Float64.to_int (p - Float64.of_int (units_sold_lag1 i))%float)
    as [d|e]; [|reflexivity].
  rewrite bind_emit; cbv beta zeta. rewrite bind_lift.
  destruct (Float64.int_truediv (price_change i) (last_month_price i))
    as [r|e]; [|rewrite <- app_assoc; reflexivity].
  do 4 (rewrite bind_emit; cbv beta zeta).
  rewrite bind_for_each_emit. unfold emit.
  repeat rewrite <- app_assoc. reflexivity.
Qed.

Lemma show_prediction_no_call (i : Inputs) (p : float) :
  List.filter is_predict_call (fst (show_prediction i p [])) = [] /\
  List.filter is_load_call (fst (show_prediction i p [])) = [].
Proof.
  rewrite show_prediction_cases.
  assert (H1 : forall l : list insight,
             List.filter is_predict_call (List.map st_info_insight l) = [])
    by (induction l; auto).
  assert (H2 : forall l : list insight,
             List.filter is_load_call (List.map st_info_insight l) = [])
    by (induction l; auto).
  destruct (Float64.to_int p); [|split; reflexivity].
  destruct (Float64.to_int _); [|split; reflexivity].
  destruct (Float64.int_truediv _ _); [|split; reflexivity].
  cbn [fst]. rewrite !filter_app, H1, H2.
  cbn [List.filter is_predict_call is_load_call app]. split; reflexivity.
Qed.

Lemma page_calls (libm_sin libm_cos : float -> float) (model : regressor)
    (x : bool * Inputs) :
  List.length (List.filter is_predict_call
                 (page libm_sin libm_cos (Some model) x))
  = (if fst x then 1%nat else 0%nat) /\
  List.filter is_load_call (page libm_sin libm_cos (Some model) x) = [].
Proof.
  destruct x as [b i]. unfold page, main_content. cbn [fst snd].
  destruct b; [|split; reflexivity].
  unfold try_except, try_body. rewrite bind_emit; cbv beta zeta.
  rewrite bind_lift.
  destruct (model _) as [p|e]; [|split; reflexivity].
  rewrite (appends_show_prediction i p).
  destruct (show_prediction_no_call i p) as [Hc Hl].
  destruct (snd (show_prediction i p [])) as [[]|e]; cbn [fst];
    unfold emit; cbn [fst];
    rewrite ?filter_app, Hc, Hl; split; reflexivity.
Qed.

Section Session.

Variables libm_sin libm_cos : float -> float.
Variable model : regressor.

Let pg := page libm_sin libm_cos (Some model).

Lemma run_script_cached (joblib_load : result regressor) (b : bool)
    (i : Inputs) :
  run_script libm_sin libm_cos joblib_load (Some (Some model, [])) b i
  = (pg (b, i), Ok tt, Some (Some model, [])).
Proof.
  unfold run_script, cached_load_model. cbn [app]. cbv beta iota zeta.
  pose proof (main_content_never_raises libm_sin libm_cos b
                (Some model) i []) as Hr.
  unfold pg, page. cbn [fst snd].
  destruct (main_content libm_sin libm_cos b (Some model) i [])
    as [tr r]. cbn [snd] in Hr. subst r. reflexivity.
Qed.

Lemma run_session_cached (joblib_load : result regressor)
    (interactions : list (bool * Inputs)) :
  run_session libm_sin libm_cos joblib_load (Some (Some model, []))
    interactions
  = List.map (fun x => (pg x, Ok tt)) interactions.
Proof.
  induction interactions as [|[b i] rest IH]; [reflexivity|].
  cbn [run_session List.map].
  rewrite (run_script_cached joblib_load b i), IH. reflexivity.
Qed.

Lemma run_script_first (b : bool) (i : Inputs) :
  run_script libm_sin libm_cos (Ok model) None b i
  = (joblib_load_called :: pg (b, i), Ok tt, Some (Some model, [])).
Proof.
  unfold run_script.
  change (cached_load_model (Ok model) None [])
    with ([joblib_load_called], Some model,
          Some (Some model, @nil event)).
  cbv beta iota zeta.
  rewrite (appends_main_content libm_sin libm_cos b (Some model)
             i [joblib_load_called]).
  rewrite main_content_never_raises. reflexivity.
Qed.

Lemma calls_in_pages (l : list (bool * Inputs)) :
  List.length
    (List.filter is_predict_call (List.concat (List.map pg l)))
  = List.length (List.filter fst l) /\
  List.filter is_load_call (List.concat (List.map pg l)) = [].
Proof.
  induction l as [|x l [IHc IHl]]; [split; reflexivity|].
  cbn [List.map List.concat List.filter].
  rewrite !filter_app, length_app, IHc, IHl.
  destruct (page_calls libm_sin libm_cos model x) as [Hc Hl].
  fold pg in Hc, Hl. rewrite Hc, Hl.
  destruct (fst x); split; reflexivity.
Qed.

(** X9: when the model loads, it is loaded once and reused for the whole
    session: [joblib.load] is called in the first run only, every run ends
    normally and shows what the main content area shows for that run's own
    inputs with that model, independently of earlier runs, and the model is
    called exactly once per run in which the button was pressed. *)
Theorem session_reuses_model (interactions : list (bool * Inputs)) :
  let runs := run_session libm_sin libm_cos (Ok model) None interactions in
  List.map fst runs =
    match interactions with
    | [] => []
    | x :: rest => (joblib_load_called :: pg x) :: List.map pg rest
    end /\
  Forall (fun run => snd run = Ok tt) runs /\
  List.length (List.filter is_load_call (List.concat (List.map fst runs)))
    = Nat.min 1 (List.length interactions) /\
  List.length (List.filter is_predict_call (List.concat (List.map fst runs)))
    = List.length (List.filter fst interactions).
Proof.
  intros runs. subst runs.
  destruct interactions as [|[b i] rest].
  - cbn. repeat split. constructor.
  - cbn [run_session].
    rewrite (run_script_first b i). cbv beta iota zeta.
    rewrite run_session_cached.
    cbn [List.map fst]. rewrite map_map. cbn [fst].
    change (fun x : bool * Inputs => pg x) with pg.
    split; [reflexivity|].
    split.
    { constructor; [reflexivity|]. apply Forall_forall.
      intros run Hin. apply in_map_iff in Hin as (x & <- & _). reflexivity. }
    destruct (calls_in_pages ((b, i) :: rest)) as [Hc Hl].
    cbn [List.map List.concat] in Hc, Hl.
    cbn [List.concat List.app List.filter is_load_call is_predict_call
           List.length].
    rewrite Hc, Hl. split; reflexivity.
Qed.

End Session.

(** ** Rounding never overflows when units are subtracted

    The spec functions of binary64 subtraction, followed far enough to see
    that a finite prediction minus at most 5000 units is finite. *)

Ltac std_Z :=
  change IntDef.Z.add with Z.add in *;
  change IntDef.Z.sub with Z.sub in *;
  change IntDef.Z.mul with Z.mul in *;
  change IntDef.Z.opp with Z.opp in *;
  change IntDef.Z.max with Z.max in *;
  change IntDef.Z.min with Z.min in *;
  change IntDef.Z.leb with Z.leb in *;
  change IntDef.Z.eqb with Z.eqb in *;
  change IntDef.Z.even with Z.even in *.

Lemma digits2_pos_bounds (p : positive) :
  2 ^ (Zpos (digits2_pos p) - 1) <= Zpos p < 2 ^ Zpos (digits2_pos p).
Proof.
  induction p as [p IH|p IH|]; cbn [digits2_pos].
  - rewrite Pos2Z.inj_succ.
    replace (Z.succ (Zpos (digits2_pos p)) - 1) with (Z.succ (Zpos (digits2_pos p) - 1)) by lia.
    rewrite !Z.pow_succ_r by lia. lia.
  - rewrite Pos2Z.inj_succ.
    replace (Z.succ (Zpos (digits2_pos p)) - 1) with (Z.succ (Zpos (digits2_pos p) - 1)) by lia.
    rewrite !Z.pow_succ_r by lia. lia.
  - cbn. lia.
Qed.

Lemma Zdigits2_bounds (m : Z) :
  0 < m -> 2 ^ (Zdigits2 m - 1) <= m < 2 ^ Zdigits2 m.
Proof.
  destruct m as [|p|p]; try lia. intros _. apply digits2_pos_bounds.
Qed.

Lemma Zdigits2_nonneg (m : Z) : 0 <= Zdigits2 m.
Proof. destruct m; cbn; lia. Qed.

Lemma Zdigits2_le (m D : Z) :
  0 <= m -> 0 <= D -> m < 2 ^ D -> Zdigits2 m <= D.
Proof.
  intros Hm HD Hlt.
  destruct (Z.eq_dec m 0) as [->|Hne]; [cbn; lia|].
  destruct (Zdigits2_bounds m ltac:(lia)) as [Hlo _].
  destruct (Z_le_gt_dec (Zdigits2 m) D) as [|Hgt]; [assumption|].
  assert (2 ^ D <= 2 ^ (Zdigits2 m - 1)) by (apply Z.pow_le_mono_r; lia).
  lia.
Qed.

Lemma shr_1_m (mrs : shr_record) :
  0 <= shr_m mrs -> shr_m (shr_1 mrs) = shr_m mrs / 2.
Proof.
  destruct mrs as [m r s]. cbn [shr_m]. intros Hm.
  rewrite <- Z.div2_div.
  destruct m as [|[p|p|]|p]; try lia; reflexivity.
Qed.

Lemma iter_pos_shr_m (p : positive) :
  forall mrs, 0 <= shr_m mrs ->
    shr_m (SpecFloat.iter_pos shr_1 p mrs) = shr_m mrs / 2 ^ Zpos p.
Proof.
  induction p as [p IH|p IH|]; intros mrs Hm; cbn [SpecFloat.iter_pos].
  - rewrite IH, IH, shr_1_m by
      (rewrite ?IH, ?shr_1_m by (rewrite ?shr_1_m; try apply Z.div_pos; lia);
       repeat apply Z.div_pos; try lia; apply Z.pow_pos_nonneg; lia).
    rewrite !Z.div_div by (try lia; apply Z.pow_pos_nonneg; lia).
    f_equal. rewrite (Pos2Z.inj_xI p).
    replace (2 * Zpos p + 1) with (1 + Zpos p + Zpos p) by lia.
    rewrite !Z.pow_add_r by lia. lia.
  - rewrite IH, IH by
      (rewrite ?IH by lia; try apply Z.div_pos; try lia;
       apply Z.pow_pos_nonneg; lia).
    rewrite !Z.div_div by (try lia; apply Z.pow_pos_nonneg; lia).
    f_equal. rewrite (Pos2Z.inj_xO p).
    replace (2 * Zpos p) with (Zpos p + Zpos p) by lia.
    rewrite !Z.pow_add_r by lia. lia.
  - rewrite shr_1_m by lia. reflexivity.
Qed.

Lemma shr_record_of_loc_m (m : Z) (l : location) :
  shr_m (shr_record_of_loc m l) = m.
Proof. destruct l as [|[]]; reflexivity. Qed.

Lemma shr_fexp_spec (m e : Z) (l : location) :
  0 <= m ->
  let sh := Z.max 0 (fexp prec emax (Zdigits2 m + e) - e) in
  shr_m (fst (shr_fexp prec emax m e l)) = m / 2 ^ sh /\
  snd (shr_fexp prec emax m e l) = e + sh.
Proof.
  intros Hm sh. subst sh. unfold shr_fexp, shr. std_Z.
  destruct (fexp prec emax (Zdigits2 m + e) - e) as [|n|n] eqn:E;
    cbn [fst snd].
  - rewrite shr_record_of_loc_m. cbn. rewrite Z.div_1_r. split; lia.
  - rewrite iter_pos_shr_m by (rewrite shr_record_of_loc_m; lia).
    rewrite shr_record_of_loc_m.
    replace (Z.max 0 (Zpos n)) with (Zpos n) by lia. split; reflexivity.
  - rewrite shr_record_of_loc_m.
    replace (Z.max 0 (Zneg n)) with 0 by lia.
    cbn. rewrite Z.div_1_r. split; lia.
Qed.

Lemma round_nearest_even_bounds (m : Z) (l : location) :
  m <= round_nearest_even m l <= m + 1.
Proof.
  unfold round_nearest_even. std_Z.
  destruct l as [|[]]; try destruct (Z.even m); lia.
Qed.


Lemma fexp_le (x : Z) : x <= 1024 -> fexp prec emax x <= 971.
Proof. unfold fexp, emin, prec, emax. std_Z. lia. Qed.

Lemma binary_round_aux_finite (s : bool) (m e D : Z) (l : location) :
  0 < m ->
  m + 2 ^ Z.max 0 (fexp prec emax (Zdigits2 m + e) - e) < 2 ^ D ->
  D + e <= 1024 -> e <= 971 ->
  finite_or_zero (binary_round_aux prec emax s m e l) = true.
Proof.
  intros Hm Hlt HD He.
  set (sh := Z.max 0 (fexp prec emax (Zdigits2 m + e) - e)) in *.
  assert (Hsh : 0 <= sh) by (subst sh; lia).
  assert (Hp : 0 < 2 ^ sh) by (apply Z.pow_pos_nonneg; lia).
  assert (HD0 : sh <= D).
  { destruct (Z_le_gt_dec sh D) as [|Hgt]; [assumption|].
    destruct (Z_lt_le_dec D 0) as [Hneg|Hpos].
    - rewrite (Z.pow_neg_r 2 D Hneg) in Hlt. lia.
    - assert (2 ^ D <= 2 ^ sh) by (apply Z.pow_le_mono_r; lia). lia. }
  destruct (shr_fexp_spec m e l ltac:(lia)) as [Hm1 He1]. fold sh in Hm1, He1.
  unfold binary_round_aux.
  destruct (shr_fexp prec emax m e l) as [mrs' e'] eqn:E1.
  cbn [fst snd] in Hm1, He1.
  set (m2 := round_nearest_even (shr_m mrs') (loc_of_shr_record mrs')).
  pose proof (round_nearest_even_bounds (shr_m mrs') (loc_of_shr_record mrs'))
    as Hm2. fold m2 in Hm2. rewrite Hm1 in Hm2.
  assert (Hm1pos : 0 <= m / 2 ^ sh) by (apply Z.div_pos; lia).
  assert (Hm2lt : m2 < 2 ^ (D - sh)).
  { assert ((m + 1 * 2 ^ sh) / 2 ^ sh < 2 ^ (D - sh)).
    { apply Z.div_lt_upper_bound; [lia|].
      rewrite <- Z.pow_add_r by lia. replace (sh + (D - sh)) with D by lia.
      lia. }
    rewrite Z.div_add in H by lia. lia. }
  destruct (shr_fexp_spec m2 e' loc_Exact ltac:(lia)) as [Hm3 He3].
  destruct (shr_fexp prec emax m2 e' loc_Exact) as [mrs'' e''] eqn:E2.
  cbn [fst snd] in Hm3, He3.
  assert (Hm3pos : 0 <= shr_m mrs'').
  { rewrite Hm3. apply Z.div_pos; [lia|]. apply Z.pow_pos_nonneg; lia. }
  destruct (shr_m mrs'') as [|m3|m3]; try reflexivity; [|lia].
  assert (He'' : e'' <= 971).
  { rewrite He3.
    assert (Hd : Zdigits2 m <= D).
    { apply Zdigits2_le; lia. }
    assert (He' : e' <= 971).
    { rewrite He1. subst sh.
      pose proof (fexp_le (Zdigits2 m + e) ltac:(lia)). lia. }
    assert (Hd2 : Zdigits2 m2 + e' <= 1024).
    { assert (Zdigits2 m2 <= D - sh) by (apply Zdigits2_le; lia). lia. }
    pose proof (fexp_le (Zdigits2 m2 + e') Hd2). lia. }
  std_Z. unfold emax, prec in *.
  destruct (e'' <=? 1024 - 53) eqn:L; [reflexivity|].
  apply Z.leb_gt in L. lia.
Qed.

Lemma iter_xO (m d : positive) :
  Zpos (PosDef.Pos.iter xO m d) = Zpos m * 2 ^ Zpos d.
Proof.
  change (PosDef.Pos.iter xO m d) with (Pos.iter xO m d).
  induction d as [|d IH] using Pos.peano_ind.
  - cbn [Pos.iter]. rewrite (Pos2Z.inj_xO m). change (2 ^ 1) with 2. lia.
  - rewrite Pos.iter_succ, (Pos2Z.inj_xO (Pos.iter xO m d)), IH.
    rewrite Pos2Z.inj_succ, Z.pow_succ_r by lia. lia.
Qed.

Lemma Zdigits2_shift (m : positive) (j : Z) :
  0 <= j -> Zdigits2 (Zpos m * 2 ^ j) = Zdigits2 (Zpos m) + j.
Proof.
  intros Hj.
  assert (HP : 0 < 2 ^ j) by (apply Z.pow_pos_nonneg; lia).
  destruct (Zdigits2_bounds (Zpos m) ltac:(lia)) as [Hlo Hhi].
  pose proof (Zdigits2_nonneg (Zpos m)) as Hd.
  assert (Hx : 0 < Zpos m * 2 ^ j) by lia.
  destruct (Zdigits2_bounds _ Hx) as [Hlo' Hhi'].
  assert (H1 : Zdigits2 (Zpos m * 2 ^ j) <= Zdigits2 (Zpos m) + j).
  { apply Zdigits2_le; try lia. rewrite Z.pow_add_r by lia. nia. }
  assert (H2 : Zdigits2 (Zpos m) - 1 + j < Zdigits2 (Zpos m * 2 ^ j)).
  { apply (Z.pow_lt_mono_r_iff 2); [lia | apply Zdigits2_nonneg |].
    assert (0 < Zdigits2 (Zpos m)) by (cbn; lia).
    rewrite Z.pow_add_r by lia. nia. }
  lia.
Qed.

Lemma binary_round_finite (s : bool) (M : positive) (e D : Z) :
  Zpos M + 2 ^ Z.max 0 (fexp prec emax (Zdigits2 (Zpos M) + e) - e) < 2 ^ D ->
  D + e <= 1024 -> e <= 971 ->
  finite_or_zero (binary_round prec emax s M e) = true.
Proof.
  intros Hlt HD He. unfold binary_round, shl_align. std_Z.
  change (Zpos (digits2_pos M)) with (Zdigits2 (Zpos M)).
  set (f := fexp prec emax (Zdigits2 (Zpos M) + e)) in *.
  destruct (f - e) as [|d|d] eqn:E.
  - apply (binary_round_aux_finite s (Zpos M) e D); try lia.
    fold f. rewrite E. exact Hlt.
  - apply (binary_round_aux_finite s (Zpos M) e D); try lia.
    fold f. rewrite E. exact Hlt.
  - replace (Z.max 0 (Zneg d)) with 0 in Hlt by lia.
    change (2 ^ 0) with 1 in Hlt.
    assert (HP : 0 < 2 ^ Zpos d) by (apply Z.pow_pos_nonneg; lia).
    apply (binary_round_aux_finite s _ f (D + Zpos d)); try lia.
    rewrite iter_xO, Zdigits2_shift by lia.
    replace (Zdigits2 (Zpos M) + Zpos d + f) with (Zdigits2 (Zpos M) + e)
      by lia.
    fold f. replace (Z.max 0 (f - f)) with 0 by lia.
    change (2 ^ 0) with 1.
    assert (0 <= D).
    { destruct (Z_lt_le_dec D 0) as [Hn|]; [|assumption].
      rewrite (Z.pow_neg_r 2 D Hn) in Hlt. lia. }
    rewrite Z.pow_add_r by lia. nia.
Qed.

Lemma shl_align_spec (mx : positive) (ex ez : Z) :
  ez <= ex ->
  Zpos (fst (shl_align mx ex ez)) = Zpos mx * 2 ^ (ex - ez).
Proof.
  intros H. unfold shl_align. std_Z.
  destruct (ez - ex) as [|d|d] eqn:E; cbn [fst]; try lia.
  - replace (ex - ez) with 0 by lia. cbn. lia.
  - rewrite iter_xO. f_equal. f_equal. lia.
Qed.

Lemma bounded_facts (m : positive) (e : Z) :
  SpecFloat.bounded prec emax m e = true ->
  Zpos m < 2 ^ 53 /\ -1074 <= e <= 971.
Proof.
  unfold SpecFloat.bounded, canonical_mantissa, fexp, emin, prec, emax. std_Z.
  intros H. apply andb_prop in H as [H1 H2].
  apply Z.eqb_eq in H1. apply Z.leb_le in H2.
  split; [|lia].
  destruct (digits2_pos_bounds m) as [_ Hhi].
  assert (Zpos (digits2_pos m) <= 53) by lia.
  assert (2 ^ Zpos (digits2_pos m) <= 2 ^ 53)
    by (apply Z.pow_le_mono_r; lia).
  lia.
Qed.

(** The shift never exceeds the excess of digits over the precision. *)
Lemma shift_bound (M ez T : Z) :
  0 < M -> M < 2 ^ T -> 53 <= T -> -1074 <= ez ->
  2 ^ Z.max 0 (fexp prec emax (Zdigits2 M + ez) - ez) <= 2 ^ (T - 53).
Proof.
  intros HM Hlt HT Hez.
  assert (Zdigits2 M <= T) by (apply Zdigits2_le; lia).
  apply Z.pow_le_mono_r; [lia|].
  unfold fexp, emin, prec, emax. std_Z. lia.
Qed.

(** The aligned difference stays below the overflow threshold. *)
Lemma difference_below_overflow (sp : bool) (mp ml ep el M : Z) :
  0 < mp < 2 ^ 53 -> 0 < ml < 2 ^ 53 ->
  -1074 <= ep <= 971 -> -1074 <= el <= -40 ->
  ~ (sp = true /\ mp = 2 ^ 53 - 1 /\ ep = 971) ->
  let ez := Z.min ep el in
  0 < M ->
  M = Z.abs (cond_Zopp sp (mp * 2 ^ (ep - ez)) - ml * 2 ^ (el - ez)) ->
  M + 2 ^ Z.max 0 (fexp prec emax (Zdigits2 M + ez) - ez)
    < 2 ^ (1024 - ez).
Proof.
  intros Hmp Hml Hep Hel Hmax ez HM HMeq.
  destruct (Z_lt_le_dec ep el) as [Hlt | Hge].
  - (* the prediction has the smaller exponent *)
    assert (Hez : ez = ep) by (subst ez; lia).
    rewrite Hez in *. replace (ep - ep) with 0 in HMeq by lia.
    change (2 ^ 0) with 1 in HMeq.
    set (j := el - ep) in *.
    assert (Hj : 0 < j <= 1034) by (subst j; lia).
    assert (HP : 2 <= 2 ^ j).
    { change 2 with (2 ^ 1) at 1. apply Z.pow_le_mono_r; lia. }
    assert (HMlt : M < 2 ^ (54 + j)).
    { rewrite Z.pow_add_r by lia.
      assert (M <= mp + ml * 2 ^ j) by (destruct sp; cbn in HMeq; lia).
      nia. }
    pose proof (shift_bound M ep (54 + j) HM HMlt ltac:(lia) ltac:(lia)) as Hs.
    replace (54 + j - 53) with (1 + j) in Hs by lia.
    assert (H2 : 2 ^ (54 + j) + 2 ^ (1 + j) <= 2 ^ (1024 - ep)).
    { assert (2 ^ (55 + j) <= 2 ^ (1024 - ep))
        by (apply Z.pow_le_mono_r; subst j; lia).
      replace (55 + j) with (1 + (54 + j)) in H by lia.
      rewrite (Z.pow_add_r 2 1 (54 + j)) in H by lia.
      assert (2 ^ (1 + j) <= 2 ^ (54 + j)) by (apply Z.pow_le_mono_r; lia).
      change (2 ^ 1) with 2 in H. lia. }
    lia.
  - (* the prediction has the larger exponent *)
    assert (Hez : ez = el) by (subst ez; lia).
    rewrite Hez in *. replace (el - el) with 0 in HMeq by lia.
    change (2 ^ 0) with 1 in HMeq. rewrite Z.mul_1_r in HMeq.
    set (k := ep - el) in *.
    assert (Hk : 0 <= k) by (subst k; lia).
    assert (HP : 1 <= 2 ^ k).
    { change 1 with (2 ^ 0) at 1. apply Z.pow_le_mono_r; lia. }
    destruct (Z_le_gt_dec ep 969) as [Hsmall | Hbig].
    + assert (HMlt : M < 2 ^ (54 + k)).
      { rewrite Z.pow_add_r by lia.
        assert (M <= mp * 2 ^ k + ml) by (destruct sp; cbn in HMeq; lia).
        nia. }
      pose proof (shift_bound M el (54 + k) HM HMlt ltac:(lia) ltac:(lia))
        as Hs.
      replace (54 + k - 53) with (1 + k) in Hs by lia.
      assert (H2 : 2 ^ (54 + k) + 2 ^ (1 + k) <= 2 ^ (1024 - el)).
      { assert (2 ^ (55 + k) <= 2 ^ (1024 - el))
          by (apply Z.pow_le_mono_r; subst k; lia).
        replace (55 + k) with (1 + (54 + k)) in H by lia.
        rewrite (Z.pow_add_r 2 1 (54 + k)) in H by lia.
        assert (2 ^ (1 + k) <= 2 ^ (54 + k)) by (apply Z.pow_le_mono_r; lia).
        change (2 ^ 1) with 2 in H. lia. }
      lia.
    + assert (Hk53 : 2 ^ 53 <= 2 ^ k)
        by (apply Z.pow_le_mono_r; subst k; lia).
      assert (HMlt : M < 2 ^ (53 + k)).
      { rewrite Z.pow_add_r by lia.
        assert (M <= mp * 2 ^ k + ml) by (destruct sp; cbn in HMeq; lia).
        nia. }
      pose proof (shift_bound M el (53 + k) HM HMlt ltac:(lia) ltac:(lia))
        as Hs.
      replace (53 + k - 53) with k in Hs by lia.
      destruct (Z.eq_dec ep 970) as [E970 | N970].
      * replace (1024 - el) with (1 + (53 + k)) by (subst k; lia).
        rewrite (Z.pow_add_r 2 1 (53 + k)) by lia.
        assert (2 ^ k <= 2 ^ (53 + k)) by (apply Z.pow_le_mono_r; lia).
        change (2 ^ 1) with 2. lia.
      * assert (E971 : ep = 971) by lia.
        replace (1024 - el) with (53 + k) by (subst k; lia).
        rewrite (Z.pow_add_r 2 53 k) by lia.
        destruct sp; cbn [cond_Zopp] in HMeq.
        -- assert (mp <= 2 ^ 53 - 2) by (destruct (Z.eq_dec mp (2 ^ 53 - 1)); [exfalso; apply Hmax; auto | lia]).
           assert (M = mp * 2 ^ k + ml) by lia.
           nia.
        -- assert (M = mp * 2 ^ k - ml) by nia.
           nia.
Qed.

Lemma SFsub_finite (sp : bool) (mp ml : positive) (ep el : Z) :
  SpecFloat.bounded prec emax mp ep = true ->
  SpecFloat.bounded prec emax ml el = true ->
  el <= -40 ->
  ~ (sp = true /\ Zpos mp = 2 ^ 53 - 1 /\ ep = 971) ->
  finite_or_zero
    (SFsub prec emax (S754_finite sp mp ep) (S754_finite false ml el)) = true.
Proof.
  intros Hbp Hbl Hel Hmax.
  destruct (bounded_facts mp ep Hbp) as [Hmp Hep].
  destruct (bounded_facts ml el Hbl) as [Hml Hel'].
  unfold SFsub. std_Z.
  set (ez := Z.min ep el).
  rewrite (shl_align_spec mp ep ez) by (subst ez; lia).
  rewrite (shl_align_spec ml el ez) by (subst ez; lia).
  unfold cond_Zopp. std_Z.
  set (A := Zpos mp * 2 ^ (ep - ez)).
  set (B := Zpos ml * 2 ^ (el - ez)).
  assert (Hfin : forall s M,
            Zpos M = Z.abs ((if sp then - A else A) - B) ->
            finite_or_zero (binary_round prec emax s M ez) = true).
  { intros s M HM.
    apply (binary_round_finite s M ez (1024 - ez)); [|lia|subst ez; lia].
    apply (difference_below_overflow sp (Zpos mp) (Zpos ml) ep el);
      try lia; try exact Hmax. exact HM. }
  unfold binary_normalize.
  destruct ((if sp then - A else A) - B) as [|M|M] eqn:E; [reflexivity| |];
    apply Hfin; reflexivity.
Qed.



Lemma small_positive_all :
  all_from 1 (Z.to_nat 5000) small_positive = true.
Proof. vm_compute. reflexivity. Qed.



Lemma lowest_minus_all :
  all_from 1 (Z.to_nat 5000) lowest_minus_finite = true.
Proof. vm_compute. reflexivity. Qed.

Lemma sub_units_finite (p : float) (lag : Z) :
  0 <= lag <= 5000 ->
  finite_or_zero (Prim2SF p) = true ->
  finite_or_zero (Prim2SF (p - Float64.of_int lag)) = true.
Proof.
  intros Hlag Hp.
  destruct (Z.eq_dec lag 0) as [-> | Hne];
    [rewrite sub_of_int_zero; exact Hp|].
  assert (Hs : small_positive lag = true)
    by (apply (all_from_spec _ _ _ _ small_positive_all); lia).
  assert (Hlow : lowest_minus_finite lag = true)
    by (apply (all_from_spec _ _ _ _ lowest_minus_all); lia).
  unfold small_positive in Hs. unfold lowest_minus_finite in Hlow.
  pose proof (Prim2SF_valid (Float64.of_int lag)) as Hvl.
  pose proof (Prim2SF_valid p) as Hvp.
  rewrite FloatAxioms.sub_spec. unfold SF64sub.
  destruct (Prim2SF (Float64.of_int lag)) as [| | |sl ml el] eqn:El;
    try discriminate.
  destruct sl; [discriminate|]. apply Z.leb_le in Hs.
  destruct (Prim2SF p) as [sp|sp| |sp mp ep] eqn:Ep; try discriminate.
  - reflexivity.
  - cbn [valid_binary] in Hvl, Hvp.
    destruct (Z.eq_dec (Zpos mp) (2 ^ 53 - 1)) as [Em|Nm];
      [destruct (Z.eq_dec ep 971) as [Ee|Ne]; [destruct sp|]|].
    + (* the most negative finite float *)
      assert (p = lowest).
      { apply Prim2SF_inj. unfold lowest.
        rewrite Prim2SF_SF2Prim by reflexivity.
        rewrite Ep. f_equal; [|exact Ee]. injection Em as ->. reflexivity. }
      subst p. rewrite FloatAxioms.sub_spec, El, Ep in Hlow. exact Hlow.
    + apply SFsub_finite; auto. intros (H & _ & _). discriminate.
    + apply SFsub_finite; auto. intros (_ & _ & H). contradiction.
    + apply SFsub_finite; auto. intros (_ & H & _). contradiction.
Qed.

(** ** Outcomes of a run *)

Lemma to_int_ok_iff (x : float) :
  (exists v, Float64.to_int x = Ok v) <-> finite_or_zero (Prim2SF x) = true.
Proof.
  unfold Float64.to_int.
  destruct (Prim2SF x) as [s|s| |s m e]; cbn [finite_or_zero];
    split; intros H; eauto; try discriminate;
    destruct H as [v H]; discriminate.
Qed.

Section Outcomes.

Variables libm_sin libm_cos : float -> float.

Let features (i : Inputs) : list (list float) :=
  input_features (numpy := numpy_float64 libm_sin libm_cos) i.

(** X10: within the widget ranges a run has one of four outcomes and never
    mixes an error message with a metric, an insight or the summary: the
    start view (button not pressed or no model), the model's error alone, a
    conversion error alone when the prediction is an infinity or nan, or
    the complete result. *)
Theorem page_outcomes (predict_button : bool) (model : option regressor)
    (i : Inputs) (tr : list event) :
  in_widget_ranges i = true ->
  exists evs,
    main_content libm_sin libm_cos predict_button model i tr
      = (tr ++ evs, Ok tt) /\
    existsb is_error evs && existsb shows_result evs = false /\
    ((predict_button = false \/ model = None) /\
     evs = [st_info_get_started; st_how_this_works]
     \/
     (exists m e,
        predict_button = true /\ model = Some m /\
        m (features i) = Raise e /\
        evs = [model_predict_called (features i);
               st_error_making_prediction e])
     \/
     (exists m p e,
        predict_button = true /\ model = Some m /\
        m (features i) = Ok p /\ Float64.to_int p = Raise e /\
        evs = [model_predict_called (features i); st_columns 3;
               st_error_making_prediction e])
     \/
     (exists m p v d,
        predict_button = true /\ model = Some m /\
        m (features i) = Ok p /\ Float64.to_int p = Ok v /\
        Float64.to_int (p - Float64.of_int (units_sold_lag1 i))%float = Ok d /\
        evs = [model_predict_called (features i);
               st_columns 3;
               st_metric_predicted_units v d;
               st_metric_price_change (price_change i)
                 (Float64.of_int (price_change i)
                    / Float64.of_int (last_month_price i) * 100)%float;
               st_metric_revenue
                 (p * Float64.of_int (current_price i))%float;
               st_markdown_rule;
               st_subheader_key_insights]
              ++ List.map st_info_insight (insights i p)
              ++ [st_input_summary i])).
Proof.
  intros Hr.
  assert (Hrange : 0 <= units_sold_lag1 i <= 5000 /\ last_month_price i <> 0).
  { unfold in_widget_ranges in Hr.
    rewrite !andb_true_iff, !Z.leb_le in Hr. lia. }
  destruct Hrange as [Hlag Hlmp].
  destruct predict_button; [destruct model as [m|]|].
  2, 3: exists [st_info_get_started; st_how_this_works];
    (split; [|split; [reflexivity | left; split; [auto | reflexivity]]]);
    unfold main_content, bind, emit; rewrite <- app_assoc; reflexivity.
  destruct (m (features i)) as [p|e] eqn:Em.
  2: { exists [model_predict_called (features i);
               st_error_making_prediction e].
       split; [apply main_content_model_raises; exact Em|].
       split; [reflexivity|]. right. left. exists m, e. auto. }
  destruct (Float64.to_int p) as [v|e] eqn:Ev.
  - assert (Hd : exists d,
               Float64.to_int
                 (p - Float64.of_int (units_sold_lag1 i))%float = Ok d).
    { apply to_int_ok_iff, sub_units_finite; [exact Hlag|].
      apply to_int_ok_iff. eauto. }
    destruct Hd as [d Hd].
    eexists. split.
    + apply (main_content_complete libm_sin libm_cos m i p v d tr Em Ev Hd
               Hlmp).
    + split.
      * cbn [existsb is_error app orb]. rewrite existsb_app.
        replace (existsb is_error
                   (List.map st_info_insight (insights i p))) with false
          by (induction (insights i p); auto).
        reflexivity.
      * right. right. right. exists m, p, v, d. auto 10.
  - exists [model_predict_called (features i); st_columns 3;
            st_error_making_prediction e].
    split.
    + unfold main_content, try_except, try_body.
      rewrite bind_emit; cbv beta zeta. rewrite bind_lift.
      fold (features i). rewrite Em.
      rewrite show_prediction_cases, Ev. unfold emit.
      repeat rewrite <- app_assoc. reflexivity.
    + split; [reflexivity|]. right. right. left. exists m, p, e. auto 10.
Qed.

End Outcomes.

Lemma page_outcomes_witness :
  exists evs,
    main_content stub_libm stub_libm true (Some (stub_model (Ok 1200%float)))
      scenario [] = (evs, Ok tt) /\
    existsb is_error evs && existsb shows_result evs = false.
Proof.
  destruct (page_outcomes stub_libm stub_libm true
              (Some (stub_model (Ok 1200%float))) scenario [] eq_refl)
    as (evs & Hrun & Hmix & _).
  exists evs. split; [exact Hrun | exact Hmix].
Defined.

(** ** Failure paths *)

Section ErrorPaths.

Variables libm_sin libm_cos : float -> float.

Let features (i : Inputs) : list (list float) :=
  input_features (numpy := numpy_float64 libm_sin libm_cos) i.






End ErrorPaths.



(** ** The order of float results *)

Lemma Zdigits2_gt (m k : Z) : 0 <= k -> 2 ^ k <= m -> k < Zdigits2 m.
Proof.
  intros Hk Hle.
  assert (Hm : 0 < m) by (pose proof (Z.pow_pos_nonneg 2 k); lia).
  destruct (Zdigits2_bounds m Hm) as [_ Hhi].
  apply (Z.pow_lt_mono_r_iff 2); [lia | apply Zdigits2_nonneg | lia].
Qed.

(** In the normal range rounding keeps a nonzero number nonzero, with its
    sign, and never lowers the exponent. *)
Lemma binary_round_aux_shape (s : bool) (m e : Z) (l : location) :
  0 < m -> -1021 <= Zdigits2 m + e ->
  binary_round_aux prec emax s m e l = S754_infinity s \/
  exists m3 e3,
    binary_round_aux prec emax s m e l = S754_finite s m3 e3 /\ e <= e3.
Proof.
  intros Hm Hn.
  destruct (Zdigits2_bounds m Hm) as [Hlo Hhi].
  assert (Hd : 0 < Zdigits2 m) by (destruct m; cbn; lia).
  set (d := Zdigits2 m) in *.
  assert (Hsh : Z.max 0 (fexp prec emax (d + e) - e) = Z.max 0 (d - 53))
    by (unfold fexp, emin, prec, emax; std_Z; lia).
  destruct (shr_fexp_spec m e l ltac:(lia)) as [Hm1 He1].
  fold d in Hm1, He1. rewrite Hsh in Hm1, He1.
  set (sh := Z.max 0 (d - 53)) in *.
  assert (Hsh0 : 0 <= sh <= d - 1) by (subst sh; lia).
  assert (HP : 0 < 2 ^ sh) by (apply Z.pow_pos_nonneg; lia).
  unfold binary_round_aux.
  destruct (shr_fexp prec emax m e l) as [mrs' e'] eqn:E1.
  cbn [fst snd] in Hm1, He1.
  set (m2 := round_nearest_even (shr_m mrs') (loc_of_shr_record mrs')).
  pose proof (round_nearest_even_bounds (shr_m mrs') (loc_of_shr_record mrs'))
    as Hm2. fold m2 in Hm2. rewrite Hm1 in Hm2.
  assert (Hm1lo : 2 ^ (d - 1 - sh) <= m / 2 ^ sh).
  { apply Z.div_le_lower_bound; [lia|].
    rewrite <- Z.pow_add_r by lia.
    replace (sh + (d - 1 - sh)) with (d - 1) by lia. lia. }
  assert (Hd2 : d - 1 - sh < Zdigits2 m2)
    by (apply Zdigits2_gt; lia).
  assert (Hm2pos : 0 < m2).
  { pose proof (Z.pow_pos_nonneg 2 (d - 1 - sh)). lia. }
  destruct (Zdigits2_bounds m2 Hm2pos) as [Hlo2 Hhi2].
  destruct (shr_fexp_spec m2 e' loc_Exact ltac:(lia)) as [Hm3 He3].
  assert (Hsh2 : Z.max 0 (fexp prec emax (Zdigits2 m2 + e') - e')
                 = Z.max 0 (Zdigits2 m2 - 53))
    by (unfold fexp, emin, prec, emax; std_Z; lia).
  rewrite Hsh2 in Hm3, He3.
  set (sh2 := Z.max 0 (Zdigits2 m2 - 53)) in *.
  assert (HP2 : 0 < 2 ^ sh2) by (apply Z.pow_pos_nonneg; lia).
  destruct (shr_fexp prec emax m2 e' loc_Exact) as [mrs'' e''] eqn:E2.
  cbn [fst snd] in Hm3, He3.
  assert (Hm3pos : 0 < shr_m mrs'').
  { rewrite Hm3. apply Z.div_str_pos. split; [lia|].
    assert (2 ^ sh2 <= 2 ^ (Zdigits2 m2 - 1))
      by (apply Z.pow_le_mono_r; subst sh2; lia).
    lia. }
  destruct (shr_m mrs'') as [|m3|m3]; try lia.
  destruct (IntDef.Z.leb e'' (IntDef.Z.sub emax prec)); [right | left; reflexivity].
  exists m3, e''. split; [reflexivity | lia].
Qed.

(** Rounding never changes the sign. *)
Lemma binary_round_aux_sign (s : bool) (m e : Z) (l : location) :
  match binary_round_aux prec emax s m e l with
  | S754_zero s' | S754_infinity s' | S754_finite s' _ _ => s' = s
  | S754_nan => True
  end.
Proof.
  unfold binary_round_aux.
  destruct (shr_fexp prec emax m e l) as [mrs' e'].
  destruct (shr_fexp prec emax _ e' loc_Exact) as [mrs'' e''].
  destruct (shr_m mrs''); auto.
  destruct (IntDef.Z.leb e'' (IntDef.Z.sub emax prec)); reflexivity.
Qed.

Lemma normal_positive_all :
  all_from 1 (Z.to_nat 10000) normal_positive = true.
Proof. vm_compute. reflexivity. Qed.

Lemma of_int_normal (z : Z) :
  1 <= z <= 10000 ->
  exists m e,
    Prim2SF (Float64.of_int z) = S754_finite false m e /\
    Zpos (digits2_pos m) = 53 /\ -52 <= e <= -39.
Proof.
  intros Hz.
  assert (H : normal_positive z = true)
    by (apply (all_from_spec _ _ _ _ normal_positive_all); lia).
  unfold normal_positive in H.
  destruct (Prim2SF (Float64.of_int z)) as [| | |[] m e]; try discriminate.
  rewrite !andb_true_iff, Z.eqb_eq, !Z.leb_le in H.
  exists m, e. repeat split; lia.
Qed.

Lemma of_int_negative (z : Z) :
  z < 0 -> Float64.of_int z = (- Float64.of_int (- z))%float.
Proof.
  intros Hz. unfold Float64.of_int.
  destruct (z <? 0) eqn:E1; [|apply Z.ltb_ge in E1; lia].
  destruct (- z <? 0) eqn:E2; [apply Z.ltb_lt in E2; lia|].
  reflexivity.
Qed.

Lemma of_int_signed (z : Z) :
  1 <= Z.abs z <= 10000 ->
  exists m e,
    Prim2SF (Float64.of_int z) = S754_finite (z <? 0) m e /\
    Zpos (digits2_pos m) = 53 /\ -52 <= e <= -39.
Proof.
  intros Hz. destruct (Z.ltb_spec z 0) as [Hneg | Hpos].
  - destruct (of_int_normal (- z) ltac:(lia)) as (m & e & Hf & Hd & He).
    exists m, e. rewrite of_int_negative, FloatAxioms.opp_spec, Hf by lia.
    auto.
  - apply of_int_normal. lia.
Qed.

Lemma SFdiv_shape (sx : bool) (mx my : positive) (ex ey : Z) :
  Zpos (digits2_pos mx) = 53 -> Zpos (digits2_pos my) = 53 ->
  -52 <= ex <= -39 -> -52 <= ey <= -39 ->
  let q := SFdiv prec emax (S754_finite sx mx ex) (S754_finite false my ey) in
  q = S754_infinity sx \/
  exists m3 e3, q = S754_finite sx m3 e3 /\ -66 <= e3.
Proof.
  intros Hdx Hdy Hex Hey q. subst q.
  unfold SFdiv, SFdiv_core_binary. cbn [Zdigits2]. rewrite Hdx, Hdy.
  std_Z.
  replace (Z.min (fexp prec emax (53 + ex - (53 + ey))) (ex - ey))
    with (ex - ey - 53)
    by (unfold fexp, emin, prec, emax; std_Z; lia).
  replace (ex - ey - (ex - ey - 53)) with 53 by lia.
  cbv iota.
  change IntDef.Z.div_eucl with Z.div_eucl.
  change IntDef.Z.shiftl with Z.shiftl.
  rewrite Z.shiftl_mul_pow2 by lia.
  pose proof (Z.div_eucl_eq (Zpos mx * 2 ^ 53) (Zpos my) ltac:(lia)) as Heq.
  pose proof (Z.mod_pos_bound (Zpos mx * 2 ^ 53) (Zpos my) ltac:(lia)) as Hr.
  unfold Z.modulo in Hr.
  destruct (Z.div_eucl (Zpos mx * 2 ^ 53) (Zpos my)) as [qq r].
  destruct (digits2_pos_bounds mx) as [Hxlo Hxhi].
  destruct (digits2_pos_bounds my) as [Hylo Hyhi].
  rewrite Hdx in Hxlo, Hxhi. rewrite Hdy in Hylo, Hyhi.
  assert (Hq : 0 < qq) by nia.
  rewrite xorb_false_r.
  destruct (binary_round_aux_shape sx qq (ex - ey - 53)
              (new_location (Zpos my) r) Hq) as [Hi | (m3 & e3 & Hf & He)].
  - pose proof (Zdigits2_nonneg qq). lia.
  - left. exact Hi.
  - right. exists m3, e3. split; [exact Hf | lia].
Qed.

Lemma round_positive (s : bool) (m e : Z) (l : location) :
  positive_float (binary_round_aux prec emax s m e l) = true -> s = false.
Proof.
  pose proof (binary_round_aux_sign s m e l) as H.
  destruct (binary_round_aux prec emax s m e l) as [|[]| |[] ? ?];
    cbn; intros; try discriminate; congruence.
Qed.

Lemma round_negative (s : bool) (m e : Z) (l : location) :
  negative_float (binary_round_aux prec emax s m e l) = true -> s = true.
Proof.
  pose proof (binary_round_aux_sign s m e l) as H.
  destruct (binary_round_aux prec emax s m e l) as [|[]| |[] ? ?];
    cbn; intros; try discriminate; congruence.
Qed.

Lemma mul_positive (x : spec_float) (m : positive) (e : Z) :
  positive_float (SFmul prec emax x (S754_finite false m e)) = true ->
  positive_float x = true.
Proof.
  unfold SFmul. destruct x as [s|s| |s mx ex]; try discriminate.
  - rewrite xorb_false_r. destruct s; auto.
  - rewrite xorb_false_r. intros H. apply round_positive in H. now subst.
Qed.

Lemma mul_negative (x : spec_float) (m : positive) (e : Z) :
  negative_float (SFmul prec emax x (S754_finite false m e)) = true ->
  negative_float x = true.
Proof.
  unfold SFmul. destruct x as [s|s| |s mx ex]; try discriminate.
  - rewrite xorb_false_r. destruct s; auto.
  - rewrite xorb_false_r. intros H. apply round_negative in H. now subst.
Qed.

Lemma div_positive (x : spec_float) (m : positive) (e : Z) :
  positive_float (SFdiv prec emax x (S754_finite false m e)) = true ->
  positive_float x = true.
Proof.
  unfold SFdiv. destruct x as [s|s| |s mx ex]; try discriminate.
  - rewrite xorb_false_r. destruct s; auto.
  - rewrite xorb_false_r.
    destruct (SFdiv_core_binary prec emax (Zpos mx) ex (Zpos m) e)
      as [[mz ez] lz].
    intros H. apply round_positive in H. now subst.
Qed.

Lemma div_negative (x : spec_float) (m : positive) (e : Z) :
  negative_float (SFdiv prec emax x (S754_finite false m e)) = true ->
  negative_float x = true.
Proof.
  unfold SFdiv. destruct x as [s|s| |s mx ex]; try discriminate.
  - rewrite xorb_false_r. destruct s; auto.
  - rewrite xorb_false_r.
    destruct (SFdiv_core_binary prec emax (Zpos mx) ex (Zpos m) e)
      as [[mz ez] lz].
    intros H. apply round_negative in H. now subst.
Qed.

Lemma above_ten_positive (c : spec_float) :
  SFltb (S754_finite false 5629499534213120 (-49)) c = true ->
  positive_float c = true.
Proof.
  unfold SFltb, SFcompare.
  destruct c as [s|[]| |[] m e]; try discriminate; reflexivity.
Qed.

Lemma below_minus_ten_negative (c : spec_float) :
  SFltb c (S754_finite true 5629499534213120 (-49)) = true ->
  negative_float c = true.
Proof.
  unfold SFltb, SFcompare.
  destruct c as [s|[]| |[] m e]; try discriminate; reflexivity.
Qed.

Lemma normal_mantissa (m : positive) (e : Z) :
  SpecFloat.bounded prec emax m e = true -> -1074 < e -> 2 ^ 52 <= Zpos m.
Proof.
  unfold SpecFloat.bounded, canonical_mantissa, fexp, emin, prec, emax.
  std_Z. intros H He. apply andb_prop in H as [H1 _].
  apply Z.eqb_eq in H1.
  destruct (digits2_pos_bounds m) as [Hlo _].
  replace (Zpos (digits2_pos m)) with 53 in Hlo by lia. exact Hlo.
Qed.

(** For canonical positive floats the order of the values is the order
    [SFcompare] computes. *)
Lemma canonical_compare (m1 m2 : positive) (e1 e2 : Z) :
  SpecFloat.bounded prec emax m1 e1 = true ->
  SpecFloat.bounded prec emax m2 e2 = true ->
  let ez := Z.min e1 e2 in
  Zpos m1 * 2 ^ (e1 - ez) < Zpos m2 * 2 ^ (e2 - ez) ->
  SFcompare (S754_finite false m1 e1) (S754_finite false m2 e2) = Some Lt.
Proof.
  intros H1 H2 ez Hlt.
  destruct (bounded_facts m1 e1 H1) as [Hm1 He1].
  destruct (bounded_facts m2 e2 H2) as [Hm2 He2].
  unfold SFcompare. std_Z.
  change IntDef.Z.compare with Z.compare.
  destruct (Z.compare_spec e1 e2) as [Heq | Hl | Hg].
  - subst e2. subst ez. rewrite Z.min_id, Z.sub_diag in Hlt.
    change (2 ^ 0) with 1 in Hlt.
    change (PosDef.Pos.compare_cont Eq m1 m2) with (Pos.compare m1 m2).
    f_equal. apply Pos.compare_lt_iff. lia.
  - reflexivity.
  - exfalso. subst ez. replace (Z.min e1 e2) with e2 in Hlt by lia.
    rewrite Z.sub_diag in Hlt. change (2 ^ 0) with 1 in Hlt.
    pose proof (normal_mantissa m1 e1 H1 ltac:(lia)) as Hn.
    assert (2 ^ 1 <= 2 ^ (e1 - e2)) by (apply Z.pow_le_mono_r; lia).
    change (2 ^ 1) with 2 in H. nia.
Qed.

Lemma binary_round_sign_positive (s : bool) (m : positive) (e : Z) :
  positive_float (binary_round prec emax s m e) = true -> s = false.
Proof.
  unfold binary_round.
  destruct (shl_align m e _) as [mz ez]. apply round_positive.
Qed.

Lemma binary_round_sign_negative (s : bool) (m : positive) (e : Z) :
  negative_float (binary_round prec emax s m e) = true -> s = true.
Proof.
  unfold binary_round.
  destruct (shl_align m e _) as [mz ez]. apply round_negative.
Qed.

Lemma sub_positive (P : spec_float) (ml : positive) (el : Z) :
  valid_binary P = true ->
  SpecFloat.bounded prec emax ml el = true ->
  positive_float (SFsub prec emax P (S754_finite false ml el)) = true ->
  SFltb (S754_finite false ml el) P = true.
Proof.
  intros HvP Hbl. unfold SFsub.
  destruct P as [sp|sp| |sp mp ep]; try discriminate.
  - destruct sp; [discriminate | reflexivity].
  - cbn [valid_binary] in HvP.
    destruct (bounded_facts mp ep HvP) as [Hmp Hep].
    destruct (bounded_facts ml el Hbl) as [Hml Hel].
    std_Z. set (ez := Z.min ep el).
    rewrite (shl_align_spec mp ep ez) by (subst ez; lia).
    rewrite (shl_align_spec ml el ez) by (subst ez; lia).
    unfold cond_Zopp, binary_normalize. std_Z.
    set (A := Zpos mp * 2 ^ (ep - ez)). set (B := Zpos ml * 2 ^ (el - ez)).
    assert (HA : 0 < A) by (subst A; apply Z.mul_pos_pos; [lia|];
                            apply Z.pow_pos_nonneg; subst ez; lia).
    assert (HB : 0 < B) by (subst B; apply Z.mul_pos_pos; [lia|];
                            apply Z.pow_pos_nonneg; subst ez; lia).
    destruct ((if sp then - A else A) - B) as [|M|M] eqn:E;
      [discriminate| |intros H; apply binary_round_sign_positive in H;
                      discriminate].
    intros _. destruct sp; [lia|].
    unfold SFltb.
    rewrite (canonical_compare ml mp el ep Hbl HvP); [reflexivity|].
    cbv zeta. rewrite (Z.min_comm el ep). fold ez. fold A. fold B. lia.
Qed.

Lemma sub_negative (P : spec_float) (ml : positive) (el : Z) :
  valid_binary P = true ->
  SpecFloat.bounded prec emax ml el = true ->
  negative_float (SFsub prec emax P (S754_finite false ml el)) = true ->
  SFltb P (S754_finite false ml el) = true.
Proof.
  intros HvP Hbl. unfold SFsub.
  destruct P as [sp|sp| |sp mp ep]; try discriminate.
  - intros _. reflexivity.
  - destruct sp; [reflexivity | discriminate].
  - cbn [valid_binary] in HvP.
    destruct (bounded_facts mp ep HvP) as [Hmp Hep].
    destruct (bounded_facts ml el Hbl) as [Hml Hel].
    std_Z. set (ez := Z.min ep el).
    rewrite (shl_align_spec mp ep ez) by (subst ez; lia).
    rewrite (shl_align_spec ml el ez) by (subst ez; lia).
    unfold cond_Zopp, binary_normalize. std_Z.
    set (A := Zpos mp * 2 ^ (ep - ez)). set (B := Zpos ml * 2 ^ (el - ez)).
    destruct ((if sp then - A else A) - B) as [|M|M] eqn:E;
      [discriminate|intros H; apply binary_round_sign_negative in H;
                    discriminate|].
    intros _. destruct sp; [reflexivity|].
    unfold SFltb.
    rewrite (canonical_compare mp ml ep el HvP Hbl); [reflexivity|].
    cbv zeta. fold ez. fold A. fold B. lia.
Qed.

Lemma units_float (lag : Z) :
  1 <= lag <= 5000 ->
  exists ml el,
    Prim2SF (Float64.of_int lag) = S754_finite false ml el /\
    SpecFloat.bounded prec emax ml el = true.
Proof.
  intros Hlag.
  assert (Hs : small_positive lag = true)
    by (apply (all_from_spec _ _ _ _ small_positive_all); lia).
  unfold small_positive in Hs.
  pose proof (Prim2SF_valid (Float64.of_int lag)) as Hv.
  destruct (Prim2SF (Float64.of_int lag)) as [| | |[] ml el];
    try discriminate.
  exists ml, el. split; [reflexivity | exact Hv].
Qed.

Lemma change_pct_spec (p : float) (lag : Z) (ml : positive) (el : Z) :
  Prim2SF (Float64.of_int lag) = S754_finite false ml el ->
  Prim2SF (change_pct p lag) =
    SFmul prec emax
      (SFdiv prec emax
         (SFsub prec emax (Prim2SF p) (S754_finite false ml el))
         (S754_finite false ml el))
      (S754_finite false 7036874417766400 (-46)).
Proof.
  intros Hl. unfold change_pct.
  rewrite FloatAxioms.mul_spec, FloatAxioms.div_spec, FloatAxioms.sub_spec,
    Hl, Prim2SF_hundred.
  reflexivity.
Qed.

Lemma stock_up_direction (p : float) (lag : Z) :
  0 <= lag <= 5000 ->
  (10 <? change_pct p lag)%float = true ->
  (Float64.of_int lag <? p)%float = true.
Proof.
  intros Hlag. destruct (Z.eq_dec lag 0) as [-> | Hne].
  - rewrite change_pct_zero_divisor, !FloatAxioms.ltb_spec, Prim2SF_zero,
      Prim2SF_ten.
    destruct (Prim2SF p) as [s|[]| |[] m e]; intros H;
      try reflexivity; vm_compute in H; discriminate.
  - destruct (units_float lag ltac:(lia)) as (ml & el & Hl & Hb).
    rewrite !FloatAxioms.ltb_spec, (change_pct_spec p lag ml el Hl),
      Prim2SF_ten, Hl.
    intros H.
    apply above_ten_positive, mul_positive, div_positive in H.
    apply sub_positive; auto. apply Prim2SF_valid.
Qed.

Lemma reduce_direction (p : float) (lag : Z) :
  0 <= lag <= 5000 ->
  (change_pct p lag <? -10)%float = true ->
  (p <? Float64.of_int lag)%float = true.
Proof.
  intros Hlag. destruct (Z.eq_dec lag 0) as [-> | Hne].
  - rewrite change_pct_zero_divisor, !FloatAxioms.ltb_spec, Prim2SF_zero,
      Prim2SF_minus_ten.
    destruct (Prim2SF p) as [s|[]| |[] m e]; intros H;
      try reflexivity; vm_compute in H; discriminate.
  - destruct (units_float lag ltac:(lia)) as (ml & el & Hl & Hb).
    rewrite !FloatAxioms.ltb_spec, (change_pct_spec p lag ml el Hl),
      Prim2SF_minus_ten, Hl.
    intros H.
    apply below_minus_ten_negative, mul_negative, div_negative in H.
    apply sub_negative; auto. apply Prim2SF_valid.
Qed.

(** X11: a magnitude advisory points the way the prediction moved: with
    last month's units in the widget range, "stock up" is shown only when
    the prediction is above last month's units and "reduce inventory" only
    when it is below. *)
Theorem advisory_direction (i : Inputs) (p x : float) :
  0 <= units_sold_lag1 i <= 5000 ->
  (In (Stock_up x) (insights i p) ->
   (Float64.of_int (units_sold_lag1 i) <? p)%float = true) /\
  (In (Demand_drop x) (insights i p) ->
   (p <? Float64.of_int (units_sold_lag1 i))%float = true).
Proof.
  intros Hlag.
  pose proof (stock_up_direction p (units_sold_lag1 i) Hlag) as Hup.
  pose proof (reduce_direction p (units_sold_lag1 i) Hlag) as Hdown.
  rewrite insights_shape. unfold price_insight, magnitude_insights.
  destruct (festive_insights_cases (is_festive i)) as [-> | ->],
    (harvest_insights_cases (is_harvest i)) as [-> | ->];
    destruct (price_change i >? 0), (price_change i <? 0);
    destruct (10 <? change_pct p (units_sold_lag1 i))%float;
    try destruct (change_pct p (units_sold_lag1 i) <? -10)%float;
    cbn [In app]; split; intros H;
    repeat match goal with
           | H : _ \/ _ |- _ => destruct H
           | H : False |- _ => destruct H
           | H : _ = _ :> insight |- _ => discriminate H
           end; auto.
Qed.

Lemma advisory_direction_witness :
  0 <= units_sold_lag1 scenario <= 5000 /\
  (Float64.of_int (units_sold_lag1 scenario) <? 1200)%float = true.
Proof.
  split; [cbn; lia |].
  destruct (advisory_direction scenario 1200 0x1.30c30c30c30c3p+4) as [H _].
  - cbn; lia.
  - apply H. rewrite scenario_stock_up. right; left; reflexivity.
Defined.


Lemma times_hundred_shape (s : bool) (x : spec_float) :
  (x = S754_infinity s \/ exists m e, x = S754_finite s m e /\ -66 <= e) ->
  let d := SFmul prec emax x (S754_finite false 7036874417766400 (-46)) in
  d = S754_infinity s \/ exists m e, d = S754_finite s m e.
Proof.
  intros [-> | (m & e & -> & He)] d; subst d; unfold SFmul;
    rewrite xorb_false_r; [left; reflexivity|].
  std_Z.
  destruct (binary_round_aux_shape s
              (Zpos (PosDef.Pos.mul m 7036874417766400)) (e + -46) loc_Exact)
    as [Hi | (m3 & e3 & Hf & _)]; try lia.
  - pose proof (Zdigits2_nonneg
                  (Zpos (PosDef.Pos.mul m 7036874417766400))).
    assert (0 < Zdigits2 (Zpos (PosDef.Pos.mul m 7036874417766400)))
      by (cbn; lia).
    lia.
  - left. exact Hi.
  - right. eauto.
Qed.

(** X12: within the widget ranges the percentage shown under the price
    metric has the sign of the price change: positive for an increase,
    negative for a cut, and exactly zero for an unchanged price. *)
Theorem price_metric_sign (i : Inputs) :
  in_widget_ranges i = true ->
  let percent :=
    (Float64.of_int (price_change i)
       / Float64.of_int (last_month_price i) * 100)%float in
  (0 <? percent)%float = (price_change i >? 0) /\
  (percent <? 0)%float = (price_change i <? 0) /\
  (price_change i = 0 -> percent = 0%float).
Proof.
  intros Hr percent.
  assert (Hrange : -9900 <= price_change i <= 9900 /\
                   100 <= last_month_price i <= 10000).
  { unfold in_widget_ranges in Hr. unfold price_change.
    rewrite !andb_true_iff, !Z.leb_le in Hr. lia. }
  destruct Hrange as [Hpc Hlmp].
  destruct (of_int_normal (last_month_price i) ltac:(lia))
    as (my & ey & Hy & Hdy & Hey).
  assert (Hspec : Prim2SF percent =
            SFmul prec emax
              (SFdiv prec emax (Prim2SF (Float64.of_int (price_change i)))
                 (S754_finite false my ey))
              (S754_finite false 7036874417766400 (-46))).
  { subst percent.
    rewrite FloatAxioms.mul_spec, FloatAxioms.div_spec, Hy, Prim2SF_hundred.
    reflexivity. }
  rewrite !FloatAxioms.ltb_spec, Prim2SF_float_zero, Hspec.
  destruct (Z.eq_dec (price_change i) 0) as [E0 | N0].
  - rewrite E0, Prim2SF_zero.
    split; [reflexivity|]. split; [reflexivity|]. intros _.
    apply Prim2SF_inj. rewrite Hspec, E0, Prim2SF_zero, Prim2SF_float_zero.
    reflexivity.
  - destruct (of_int_signed (price_change i) ltac:(lia))
      as (mx & ex & Hx & Hdx & Hex).
    rewrite Hx.
    pose proof (SFdiv_shape (price_change i <? 0) mx my ex ey Hdx Hdy Hex Hey)
      as Hq.
    apply times_hundred_shape in Hq.
    cbv zeta in Hq.
    assert (Hgt : (price_change i >? 0) = negb (price_change i <? 0)).
    { rewrite Z.gtb_ltb.
      destruct (Z.ltb_spec 0 (price_change i)),
        (Z.ltb_spec (price_change i) 0); try reflexivity; lia. }
    rewrite Hgt.
    destruct Hq as [-> | (m & e & ->)];
      destruct (price_change i <? 0);
      (split; [reflexivity|]); (split; [reflexivity|]); intros; contradiction.
Qed.

Lemma price_metric_sign_witness :
  in_widget_ranges scenario = true /\
  (0 <? Float64.of_int (price_change scenario)
        / Float64.of_int (last_month_price scenario) * 100)%float = true.
Proof.
  split; [reflexivity |].
  pose proof (price_metric_sign scenario eq_refl) as H.
  cbv zeta in H. destruct H as [H _].
  rewrite H. reflexivity.
Defined.

(** ** The delta of the predicted units *)

Lemma to_int_sign (x : float) (d : Z) :
  Float64.to_int x = Ok d ->
  (0 < d -> positive_float (Prim2SF x) = true) /\
  (d < 0 -> negative_float (Prim2SF x) = true).
Proof.
  unfold Float64.to_int.
  destruct (Prim2SF x) as [s|s| |s m e]; try discriminate.
  - intros [= <-]. split; lia.
  - cbv zeta.
    match goal with
    | |- Ok (if s then - ?t else _) = _ -> _ =>
        assert (Hmag : 0 <= t);
        [ destruct e as [|q|q];
          [ lia
          | pose proof (Z.pow_pos_nonneg 2 (Zpos q)); nia
          | apply Z.div_pos; [lia | apply Z.pow_pos_nonneg; lia] ]
        | revert Hmag; generalize t ]
    end.
    intros mag Hmag [= <-].
    destruct s; cbn [positive_float negative_float]; split; intros;
      auto; lia.
Qed.

Lemma positive_not_negative (x : spec_float) :
  positive_float x = true -> negative_float x = true -> False.
Proof. destruct x as [|[]| |[] ? ?]; cbn; congruence. Qed.

Lemma stock_up_difference (p : float) (lag : Z) :
  0 <= lag <= 5000 ->
  (10 <? change_pct p lag)%float = true ->
  positive_float (Prim2SF (p - Float64.of_int lag)%float) = true.
Proof.
  intros Hlag. destruct (Z.eq_dec lag 0) as [-> | Hne].
  - rewrite change_pct_zero_divisor, sub_of_int_zero, FloatAxioms.ltb_spec,
      Prim2SF_ten.
    destruct (Prim2SF p) as [s|[]| |[] m e]; intros H;
      try reflexivity; vm_compute in H; discriminate.
  - destruct (units_float lag ltac:(lia)) as (ml & el & Hl & Hb).
    rewrite FloatAxioms.ltb_spec, (change_pct_spec p lag ml el Hl),
      Prim2SF_ten, FloatAxioms.sub_spec, Hl.
    intros H.
    now apply above_ten_positive, mul_positive, div_positive in H.
Qed.

Lemma demand_drop_difference (p : float) (lag : Z) :
  0 <= lag <= 5000 ->
  (change_pct p lag <? -10)%float = true ->
  negative_float (Prim2SF (p - Float64.of_int lag)%float) = true.
Proof.
  intros Hlag. destruct (Z.eq_dec lag 0) as [-> | Hne].
  - rewrite change_pct_zero_divisor, sub_of_int_zero, FloatAxioms.ltb_spec,
      Prim2SF_minus_ten.
    destruct (Prim2SF p) as [s|[]| |[] m e]; intros H;
      try reflexivity; vm_compute in H; discriminate.
  - destruct (units_float lag ltac:(lia)) as (ml & el & Hl & Hb).
    rewrite FloatAxioms.ltb_spec, (change_pct_spec p lag ml el Hl),
      Prim2SF_minus_ten, FloatAxioms.sub_spec, Hl.
    intros H.
    now apply below_minus_ten_negative, mul_negative, div_negative in H.
Qed.

Lemma difference_order (p : float) (lag : Z) :
  0 <= lag <= 5000 ->
  (positive_float (Prim2SF (p - Float64.of_int lag)%float) = true ->
   (Float64.of_int lag <? p)%float = true) /\
  (negative_float (Prim2SF (p - Float64.of_int lag)%float) = true ->
   (p <? Float64.of_int lag)%float = true).
Proof.
  intros Hlag. destruct (Z.eq_dec lag 0) as [-> | Hne].
  - rewrite sub_of_int_zero, !FloatAxioms.ltb_spec, Prim2SF_zero.
    destruct (Prim2SF p) as [s|[]| |[] m e]; split; intros H;
      try reflexivity; discriminate.
  - destruct (units_float lag ltac:(lia)) as (ml & el & Hl & Hb).
    rewrite !FloatAxioms.ltb_spec, FloatAxioms.sub_spec, Hl.
    split; intros H.
    + apply sub_positive; auto. apply Prim2SF_valid.
    + apply sub_negative; auto. apply Prim2SF_valid.
Qed.

(** X13: the delta shown under the predicted units points the way the
    prediction moved and never contradicts the magnitude advisory: with last
    month's units in the widget range, a positive delta is shown only when
    the prediction is above last month's units and a negative one only when
    it is below; beside a "stock up" advisory the delta is never negative,
    and beside a "reduce inventory" advisory never positive. *)
Theorem delta_direction (i : Inputs) (p x : float) (d : Z) :
  0 <= units_sold_lag1 i <= 5000 ->
  Float64.to_int (p - Float64.of_int (units_sold_lag1 i))%float = Ok d ->
  (0 < d -> (Float64.of_int (units_sold_lag1 i) <? p)%float = true) /\
  (d < 0 -> (p <? Float64.of_int (units_sold_lag1 i))%float = true) /\
  (In (Stock_up x) (insights i p) -> 0 <= d) /\
  (In (Demand_drop x) (insights i p) -> d <= 0).
Proof.
  intros Hlag Hd.
  destruct (to_int_sign _ _ Hd) as [Hpos Hneg].
  destruct (difference_order p (units_sold_lag1 i) Hlag) as [Hgt Hlt].
  pose proof (stock_up_difference p (units_sold_lag1 i) Hlag) as Hup.
  pose proof (demand_drop_difference p (units_sold_lag1 i) Hlag) as Hdown.
  split; [auto |]. split; [auto |].
  rewrite insights_shape. unfold price_insight, magnitude_insights.
  destruct (festive_insights_cases (is_festive i)) as [-> | ->],
    (harvest_insights_cases (is_harvest i)) as [-> | ->];
    destruct (price_change i >? 0), (price_change i <? 0);
    destruct (10 <? change_pct p (units_sold_lag1 i))%float;
    try destruct (change_pct p (units_sold_lag1 i) <? -10)%float;
    cbn [In app]; split; intros H;
    repeat match goal with
           | H : _ \/ _ |- _ => destruct H
           | H : False |- _ => destruct H
           | H : _ = _ :> insight |- _ => discriminate H
           end;
    match goal with
    | |- 0 <= d =>
        destruct (Z.lt_ge_cases d 0) as [Hc | Hc]; [exfalso | lia];
        apply (positive_not_negative _ (Hup eq_refl) (Hneg Hc))
    | |- d <= 0 =>
        destruct (Z.lt_ge_cases 0 d) as [Hc | Hc]; [exfalso | lia];
        apply (positive_not_negative _ (Hpos Hc) (Hdown eq_refl))
    end.
Qed.

Lemma delta_direction_witness :
  0 <= units_sold_lag1 scenario <= 5000 /\
  Float64.to_int (1200 - Float64.of_int (units_sold_lag1 scenario))%float
    = Ok 192 /\
  (Float64.of_int (units_sold_lag1 scenario) <? 1200)%float = true.
Proof.
  split; [cbn; lia |]. split; [vm_compute; reflexivity |].
  destruct (delta_direction scenario 1200 0 192) as [H _].
  - cbn; lia.
  - vm_compute; reflexivity.
  - apply H. lia.
Defined.

(** ** The revenue estimate *)

(** Rounding keeps a nonzero number nonzero as soon as it is at least the
    smallest subnormal, and keeps its sign. *)
Lemma binary_round_aux_nonzero (s : bool) (m e : Z) (l : location) :
  0 < m -> -1073 <= Zdigits2 m + e ->
  binary_round_aux prec emax s m e l = S754_infinity s \/
  exists m3 e3, binary_round_aux prec emax s m e l = S754_finite s m3 e3.
Proof.
  intros Hm Hn.
  destruct (Zdigits2_bounds m Hm) as [Hlo Hhi].
  assert (Hd : 0 < Zdigits2 m) by (destruct m; cbn; lia).
  set (d := Zdigits2 m) in *.
  destruct (shr_fexp_spec m e l ltac:(lia)) as [Hm1 He1].
  fold d in Hm1, He1.
  set (sh := Z.max 0 (fexp prec emax (d + e) - e)) in *.
  assert (Hsh0 : 0 <= sh <= d - 1)
    by (subst sh; unfold fexp, emin, prec, emax; std_Z; lia).
  assert (HP : 0 < 2 ^ sh) by (apply Z.pow_pos_nonneg; lia).
  unfold binary_round_aux.
  destruct (shr_fexp prec emax m e l) as [mrs' e'] eqn:E1.
  cbn [fst snd] in Hm1, He1.
  set (m2 := round_nearest_even (shr_m mrs') (loc_of_shr_record mrs')).
  pose proof (round_nearest_even_bounds (shr_m mrs') (loc_of_shr_record mrs'))
    as Hm2. fold m2 in Hm2. rewrite Hm1 in Hm2.
  assert (Hm1lo : 2 ^ (d - 1 - sh) <= m / 2 ^ sh).
  { apply Z.div_le_lower_bound; [lia|].
    rewrite <- Z.pow_add_r by lia.
    replace (sh + (d - 1 - sh)) with (d - 1) by lia. lia. }
  assert (Hd2 : d - 1 - sh < Zdigits2 m2)
    by (apply Zdigits2_gt; lia).
  assert (Hm2pos : 0 < m2).
  { pose proof (Z.pow_pos_nonneg 2 (d - 1 - sh)). lia. }
  destruct (Zdigits2_bounds m2 Hm2pos) as [Hlo2 Hhi2].
  destruct (shr_fexp_spec m2 e' loc_Exact ltac:(lia)) as [Hm3 He3].
  set (sh2 := Z.max 0 (fexp prec emax (Zdigits2 m2 + e') - e')) in *.
  assert (Hsh2 : 0 <= sh2 <= Zdigits2 m2 - 1)
    by (subst sh2; unfold fexp, emin, prec, emax; std_Z; lia).
  assert (HP2 : 0 < 2 ^ sh2) by (apply Z.pow_pos_nonneg; lia).
  destruct (shr_fexp prec emax m2 e' loc_Exact) as [mrs'' e''] eqn:E2.
  cbn [fst snd] in Hm3, He3.
  assert (Hm3pos : 0 < shr_m mrs'').
  { rewrite Hm3. apply Z.div_str_pos. split; [lia|].
    assert (2 ^ sh2 <= 2 ^ (Zdigits2 m2 - 1))
      by (apply Z.pow_le_mono_r; lia).
    lia. }
  destruct (shr_m mrs'') as [|m3|m3]; try lia.
  destruct (IntDef.Z.leb e'' (IntDef.Z.sub emax prec));
    [right; eauto | left; reflexivity].
Qed.

(** A number times a normal positive factor of at least one keeps its
    kind and sign. *)
Lemma times_price_shape (s : bool) (mp ml : positive) (ep el : Z) :
  SpecFloat.bounded prec emax mp ep = true ->
  Zpos (digits2_pos ml) = 53 -> -52 <= el ->
  let r := SFmul prec emax (S754_finite s mp ep) (S754_finite false ml el) in
  r = S754_infinity s \/ exists m e, r = S754_finite s m e.
Proof.
  intros Hb Hdl Hel r. subst r. unfold SFmul. rewrite xorb_false_r.
  destruct (bounded_facts mp ep Hb) as [_ Hep].
  std_Z.
  apply binary_round_aux_nonzero; [lia |].
  change (PosDef.Pos.mul mp ml) with (Pos.mul mp ml).
  rewrite Pos2Z.inj_mul.
  destruct (Zdigits2_bounds (Zpos mp) ltac:(lia)) as [Hlo _].
  destruct (Zdigits2_bounds (Zpos ml) ltac:(lia)) as [Hll _].
  change (Zdigits2 (Zpos ml)) with (Zpos (digits2_pos ml)) in Hll.
  rewrite Hdl in Hll.
  assert (Hdp : 0 < Zdigits2 (Zpos mp)) by (cbn; lia).
  assert (Hprod : 2 ^ (Zdigits2 (Zpos mp) - 1 + 52) <= Zpos mp * Zpos ml).
  { rewrite Z.pow_add_r by lia.
    change (53 - 1) with 52 in Hll.
    apply Z.mul_le_mono_nonneg; try lia;
      apply Z.pow_nonneg; lia. }
  apply Zdigits2_gt in Hprod; lia.
Qed.

(** X14: within the widget ranges the revenue estimate has the sign of
    the prediction: it is positive exactly for a positive prediction,
    negative exactly for a negative one (so zero only for a prediction of
    zero), and nan only for a nan prediction; rounding never turns a small
    prediction into a zero estimate. *)
Theorem revenue_sign (i : Inputs) (p : float) :
  in_widget_ranges i = true ->
  let revenue_estimate := (p * Float64.of_int (current_price i))%float in
  (0 <? revenue_estimate)%float = (0 <? p)%float /\
  (revenue_estimate <? 0)%float = (p <? 0)%float /\
  (Prim2SF revenue_estimate = S754_nan <-> Prim2SF p = S754_nan).
Proof.
  intros Hr revenue_estimate.
  unfold in_widget_ranges in Hr.
  rewrite !andb_true_iff, !Z.leb_le in Hr.
  destruct (of_int_normal (current_price i) ltac:(lia))
    as (ml & el & Hc & Hdl & Hel).
  assert (Hspec : Prim2SF revenue_estimate
                  = SFmul prec emax (Prim2SF p) (S754_finite false ml el)).
  { subst revenue_estimate. rewrite FloatAxioms.mul_spec, Hc. reflexivity. }
  rewrite !FloatAxioms.ltb_spec, Prim2SF_float_zero, Hspec.
  pose proof (Prim2SF_valid p) as Hv.
  destruct (Prim2SF p) as [s|s| |s mp ep].
  - cbn [SFmul]. rewrite xorb_false_r.
    repeat split; try reflexivity; discriminate.
  - cbn [SFmul]. rewrite xorb_false_r.
    repeat split; try reflexivity; discriminate.
  - cbn [SFmul]. repeat split; reflexivity.
  - cbn [valid_binary] in Hv.
    pose proof (times_price_shape s mp ml ep el Hv Hdl ltac:(lia)) as Hs.
    cbv zeta in Hs.
    destruct Hs as [-> | (m & e & ->)]; destruct s;
      repeat split; try reflexivity; discriminate.
Qed.

Lemma revenue_sign_witness :
  in_widget_ranges scenario = true /\
  (0 <? 1200 * Float64.of_int (current_price scenario))%float = true.
Proof.
  split; [reflexivity |].
  pose proof (revenue_sign scenario 1200 eq_refl) as H.
  cbv zeta in H. destruct H as [H _].
  rewrite H. reflexivity.
Defined.

(** ** The input summary *)

(** The rendering on some values, as Python prints them. *)
Lemma format_thousands_examples :
  format_thousands 0 = "0"%string /\
  format_thousands 999 = "999"%string /\
  format_thousands 1500 = "1,500"%string /\
  format_thousands (-50) = "-50"%string /\
  format_thousands (-1250) = "-1,250"%string /\
  format_thousands 1234567 = "1,234,567"%string.
Proof. vm_compute. repeat split. Qed.

Lemma commas_filter (n : nat) (l : list ascii) :
  (List.length l <= n)%nat ->
  List.filter not_comma (commas l) = List.filter not_comma l.
Proof.
  revert l. induction n as [|n IH]; intros l Hl.
  - destruct l; [reflexivity | cbn in Hl; lia].
  - destruct l as [|a [|b [|c [|d rest]]]]; try reflexivity.
    change (commas (a :: b :: c :: d :: rest))
      with (a :: b :: c :: ","%char :: commas (d :: rest)).
    assert (Hrest : List.filter not_comma (commas (d :: rest))
                    = List.filter not_comma (d :: rest))
      by (apply IH; cbn [List.length] in *; lia).
    cbn [List.filter] in *.
    change (not_comma ","%char) with false. cbv iota.
    rewrite Hrest. reflexivity.
Qed.

Lemma digits_no_comma (d : Decimal.uint) :
  List.filter not_comma
    (list_ascii_of_string (DecimalString.NilEmpty.string_of_uint d))
  = list_ascii_of_string (DecimalString.NilEmpty.string_of_uint d).
Proof.
  induction d; cbn [DecimalString.NilEmpty.string_of_uint
                    list_ascii_of_string List.filter];
    try reflexivity;
    match goal with
    | |- context [not_comma ?c] => change (not_comma c) with true
    end; cbv iota; now rewrite IHd.
Qed.

Lemma filter_rev_rev (l : list ascii) :
  List.filter not_comma (rev (commas (rev l))) = List.filter not_comma l.
Proof.
  rewrite filter_rev, (commas_filter (List.length (rev l)) (rev l)) by lia.
  rewrite <- filter_rev, rev_involutive. reflexivity.
Qed.

(** Dropping the commas from [f"{z:,}"] leaves [str(z)]. *)
Lemma format_thousands_digits (z : Z) :
  List.filter not_comma (list_ascii_of_string (format_thousands z))
  = list_ascii_of_string (str_of_int z).
Proof.
  unfold format_thousands, str_of_int.
  destruct z as [|p|p]; cbv zeta.
  - reflexivity.
  - change (Z.pos p <? 0) with false. cbv iota.
    rewrite list_ascii_of_string_of_list_ascii, filter_rev_rev.
    apply digits_no_comma.
  - change (Z.neg p <? 0) with true. cbv iota.
    cbn [list_ascii_of_string List.filter].
    change (not_comma "-"%char) with true. cbv iota.
    rewrite list_ascii_of_string_of_list_ascii, filter_rev_rev.
    cbn [Z.abs Z.to_int DecimalString.NilEmpty.string_of_int
         list_ascii_of_string].
    f_equal. apply digits_no_comma.
Qed.

Lemma str_of_int_inj (a b : Z) : str_of_int a = str_of_int b -> a = b.
Proof.
  unfold str_of_int. intros H.
  apply (f_equal DecimalString.NilEmpty.int_of_string) in H.
  rewrite !DecimalString.NilEmpty.isi in H.
  injection H as H. now apply DecimalZ.to_int_inj.
Qed.

Lemma list_ascii_of_string_app (s t : string) :
  list_ascii_of_string (s ++ t)
  = (list_ascii_of_string s ++ list_ascii_of_string t)%list.
Proof. induction s; cbn; [reflexivity | now rewrite IHs]. Qed.

Lemma list_ascii_of_string_inj (s t : string) :
  list_ascii_of_string s = list_ascii_of_string t -> s = t.
Proof.
  intros H. apply (f_equal string_of_list_ascii) in H.
  now rewrite !string_of_list_ascii_of_string in H.
Qed.

(** Two numbers with the same rendering are equal, also before a fixed
    suffix. *)
Lemma format_thousands_inj (post : string) (a b : Z) :
  (format_thousands a ++ post)%string
  = (format_thousands b ++ post)%string ->
  a = b.
Proof.
  intros H. apply (f_equal list_ascii_of_string) in H.
  rewrite !list_ascii_of_string_app in H.
  apply app_inv_tail in H.
  apply (f_equal (List.filter not_comma)) in H.
  rewrite !format_thousands_digits in H.
  now apply str_of_int_inj, list_ascii_of_string_inj.
Qed.

Lemma append_empty (s : string) : (s ++ EmptyString)%string = s.
Proof. induction s; cbn; [reflexivity | now rewrite IHs]. Qed.

Lemma summary_scenario :
  summary_df "February" scenario =
    Ok [("Prediction Month", Text "February");
        ("Months Since Start", Number (months_since_start scenario));
        ("Current Price", Text (naira ++ "1,500"));
        ("Last Month Price", Text (naira ++ "1,450"));
        ("Price Change", Text (naira ++ "50"));
        ("Last Month Sales", Text "1,008 units");
        ("Festive Month", Text "No");
        ("Harvest Season", Text "No")]%string.
Proof. vm_compute. reflexivity. Qed.

(** X15: the input summary always builds, one row per parameter in the
    order of the source, and it echoes the inputs without loss: two runs show
    the same table exactly when they agree on the month name, the time
    index, both prices, last month's units and both season choices. *)
Theorem summary_echo (month1 month2 : string) (i1 i2 : Inputs) :
  (exists rows,
     summary_df month1 i1 = Ok rows /\
     List.map fst rows = summary_parameters /\
     List.map snd rows = summary_values month1 i1) /\
  (summary_df month1 i1 = summary_df month2 i2 <->
   month1 = month2 /\
   months_since_start i1 = months_since_start i2 /\
   current_price i1 = current_price i2 /\
   last_month_price i1 = last_month_price i2 /\
   units_sold_lag1 i1 = units_sold_lag1 i2 /\
   is_festive i1 = is_festive i2 /\
   is_harvest i1 = is_harvest i2).
Proof.
  split.
  - eexists. split; [reflexivity |]. split; reflexivity.
  - unfold summary_df, pd_DataFrame, summary_parameters, summary_values.
    cbn [List.length Nat.eqb List.combine]. split.
    + intros H. injection H as Hm Ht Hc Hl Hp Hu Hf Hh.
      rewrite <- (append_empty (format_thousands (current_price i1))),
        <- (append_empty (format_thousands (current_price i2))) in Hc.
      rewrite <- (append_empty (format_thousands (last_month_price i1))),
        <- (append_empty (format_thousands (last_month_price i2))) in Hl.
      apply format_thousands_inj in Hc, Hl, Hu.
      repeat split; assumption.
    + intros (-> & Ht & Hc & Hl & Hu & -> & ->).
      unfold price_change. rewrite Ht, Hc, Hl, Hu. reflexivity.
Qed.
